(** * geo_converter: reverse geocoding client and batch processor

    A shallow embedding of [geo_converter/geocoder.py] (class
    [ReverseGeocoder]) and of the batch loop of [geo_converter/app.py],
    with the properties of the specification stated over it.

    Conventions of the embedding.
    - Python [int] is [Z]; [range(n)] is the list [0; ...; n-1].
    - Python [float] coordinates that are equal to themselves are an
      abstract type with the builtin [round(x, 4)] as an operation
      (class [Float]).  NaN, which pandas puts where a cell of a table
      is blank and which is equal to nothing, is a value of its own
      (type [number]).
    - Python dictionaries holding a geocoding result are objects on a
      heap: [reverse_geocode] returns a reference, [dict.copy()]
      allocates, and item assignment updates in place, so that sharing
      between the cache and the caller is visible.
    - [time.sleep] and [session.get] append to a log of events; the
      provider is a function from the number of requests sent so far and
      the coordinates to a response.
    - Raised exceptions are values of type [exn]; a computation that
      raises keeps the state changes made before the raise. *)

From Stdlib Require Import ZArith Lia Ascii.
From stdpp Require Import base option list gmap strings pretty.

Local Open Scope string_scope.
Local Open Scope list_scope.

(** ** Strings *)

(** [str.upper()] and [str.lower()] on the ASCII letters; the column and
    country-code strings of this program are ASCII. *)
Definition upper_ascii (c : ascii) : ascii :=
  let n := Ascii.N_of_ascii c in
  if ((97 <=? n) && (n <=? 122))%N then Ascii.ascii_of_N (n - 32) else c.

Definition lower_ascii (c : ascii) : ascii :=
  let n := Ascii.N_of_ascii c in
  if ((65 <=? n) && (n <=? 90))%N then Ascii.ascii_of_N (n + 32) else c.

Fixpoint str_map (f : ascii → ascii) (s : string) : string :=
  match s with
  | EmptyString => EmptyString
  | String c rest => String (f c) (str_map f rest)
  end.

Definition upper (s : string) : string := str_map upper_ascii s.
Definition lower (s : string) : string := str_map lower_ascii s.

(** [sep.join(l)] *)
Fixpoint join (sep : string) (l : list string) : string :=
  match l with
  | [] => ""
  | [s] => s
  | s :: rest => s +:+ sep +:+ join sep rest
  end.

(** [str(x)] for a value that is [None] or an exception with a message. *)
Definition str (last_error : option string) : string :=
  match last_error with
  | Some e => e
  | None => "None"
  end.

(** [s.startswith(p)] *)
Definition startswith (p s : string) : bool := String.prefix p s.

(** ** The provider boundary *)

(** The JSON object of a 2xx response, as the provider documents it: an
    optional [address] sub-object whose values are strings, and an
    optional top-level [display_name] string. *)
Record json_data := {
  data_address : option (gmap string string);
  data_display_name : option string
}.

(** What [session.get] followed by [raise_for_status] and [json] gives:
    the decoded object, or a [requests.exceptions.RequestException] with
    its message. *)
Inductive response :=
  | Response (data : json_data)
  | RequestException (e : string).

(** Exceptions that leave a function of this program. *)
Inductive exn :=
  | ValueError (msg : string)
  | KeyError (msg : string)
  | TypeError (msg : string)
  | FileNotFoundError (msg : string).

(** References to result dictionaries. *)
Definition loc := nat.

(** Python floats other than NaN, with [round(x, 4)]. *)
Class Float := {
  float : Type;
  float_eq_dec :: EqDecision float;
  float_countable :: Countable float;
  float_inhabited :: Inhabited float;
  round4 : float → float
}.

(** ** geocoder.py: [_extract_city] *)

Definition city_fields : list string :=
  ["city"; "town"; "village"; "municipality"; "hamlet"].

(** The loop [for field in city_fields: if field in address: return
    address[field]], falling through to [return None]. *)
Fixpoint first_present (fields : list string) (address : gmap string string)
  : option string :=
  match fields with
  | [] => None
  | field :: rest =>
      match address !! field with
      | Some v => Some v
      | None => first_present rest address
      end
  end.

Definition _extract_city (address : gmap string string) : option string :=
  first_present city_fields address.

Section Model.
Context `{Float}.

(** ** Data model *)

(** A coordinate as [reverse_geocode] receives it: a float of the class
    above or NaN. *)
Inductive number :=
  | Num (x : float)
  | NaN.

#[warning="-uniform-inheritance"] Coercion Num : float >-> number.

#[export] Instance number_eq_dec : EqDecision number.
Proof. solve_decision. Defined.

#[export] Instance number_inhabited : Inhabited number := populate NaN.

(** The dictionary built by [reverse_geocode]: always these nine keys. *)
Record result := {
  latitude : number;
  longitude : number;
  city : option string;
  state : option string;
  country : option string;
  country_code : option string;
  postcode : option string;
  display_name : option string;
  status : string
}.

#[export] Instance result_inhabited : Inhabited result :=
  populate {| latitude := inhabitant; longitude := inhabitant;
              city := None; state := None; country := None;
              country_code := None; postcode := None;
              display_name := None; status := "" |}.

(** Item assignment on a result dictionary. *)
Definition set_latitude (x : number) (r : result) : result :=
  {| latitude := x; longitude := longitude r; city := city r;
     state := state r; country := country r;
     country_code := country_code r; postcode := postcode r;
     display_name := display_name r; status := status r |}.

Definition set_longitude (x : number) (r : result) : result :=
  {| latitude := latitude r; longitude := x; city := city r;
     state := state r; country := country r;
     country_code := country_code r; postcode := postcode r;
     display_name := display_name r; status := status r |}.

(** Cells of a table: a float, a string, or a missing value, which is
    NaN in a table that was read and [None] in a column of results. *)
Inductive cell :=
  | CFloat (x : float)
  | CStr (s : string)
  | CNone.

(** A [pandas.DataFrame] with the default [RangeIndex]: column labels
    and the rows in index order. *)
Record DataFrame := {
  columns : list string;
  data : list (list cell)
}.

(** Observable effects outside the process. *)
Inductive event :=
  | Sleep (secs : Z)
  | Get (lat lon : number).

(** What is shown on the page.  [st_exception] stands for the pair
    [st.error(prefix + str(e))], [st.exception(e)]; [st_complete] for the
    closing success message, whose elapsed seconds are wall-clock time
    and left out; [st_cache_saved] for the message on saved calls. *)
Inductive ui_msg :=
  | st_success (s : string)
  | st_error (s : string)
  | st_info (s : string)
  | st_caption (s : string)
  | st_exception (s : string) (e : exn)
  | st_complete (successful_count total_rows : Z)
  | st_cache_saved (cache_hits : Z)
  | st_dataframe (df : DataFrame)
  | st_download_button (content : option DataFrame).

(** The keys of [self.cache]: the pair of the rounded coordinates.  A
    pair that holds a NaN is equal to no other key, since [round] makes
    a new NaN object of a NaN and NaN objects are compared by identity:
    every entry stored under such a pair is an entry of its own, and the
    model numbers these entries. *)
Definition key : Type := (float * float) + nat.

(** The object [self]. *)
Record ReverseGeocoder := {
  cache : gmap key loc;
  cache_hits : Z;
  cache_misses : Z
}.

(** Everything else: the heap of result dictionaries, the number of
    requests sent, the log of sleeps and requests, the files, the page. *)
Record world := {
  heap : list result;
  sent : nat;
  log : list event;
  files : gmap string DataFrame;
  ui : list ui_msg
}.

Definition set_heap (h : list result) (w : world) : world :=
  {| heap := h; sent := sent w; log := log w; files := files w; ui := ui w |}.

Definition set_files (f : gmap string DataFrame) (w : world) : world :=
  {| heap := heap w; sent := sent w; log := log w; files := f; ui := ui w |}.

Definition st_write (m : ui_msg) (w : world) : world :=
  {| heap := heap w; sent := sent w; log := log w; files := files w;
     ui := ui w ++ [m] |}.

(** ** Heap operations on result dictionaries *)

(** A dictionary display [{...}]: a new object. *)
Definition new_dict (r : result) (w : world) : loc * world :=
  (length (heap w), set_heap (heap w ++ [r]) w).

(** [d.copy()]: a new object with the items of [d]. *)
Definition dict_copy (l : loc) (w : world) : loc * world :=
  new_dict (heap w !!! l) w.

(** [d[k] = v], as a function on the record. *)
Definition dict_set (l : loc) (f : result → result) (w : world) : world :=
  set_heap (alter f l (heap w)) w.

(** ** Effects *)

Definition time_sleep (secs : Z) (w : world) : world :=
  {| heap := heap w; sent := sent w; log := log w ++ [Sleep secs];
     files := files w; ui := ui w |}.

Variable provider : nat → number → number → response.

(** [self.session.get(self.base_url, params=params, timeout=10)] with
    [raise_for_status()] and [json()].  The other parameters of the
    request (format, addressdetails, accept-language) are constants. *)
Definition session_get (lat lon : number) (w : world) : response * world :=
  (provider (sent w) lat lon,
   {| heap := heap w; sent := S (sent w); log := log w ++ [Get lat lon];
      files := files w; ui := ui w |}).

(** ** geocoder.py: [ReverseGeocoder] *)

Definition __init__ : ReverseGeocoder :=
  {| cache := ∅; cache_hits := 0; cache_misses := 0 |}.

(** [cache_key = (round(lat, 4), round(lon, 4))] for two floats. *)
Definition cache_key (lat lon : float) : key :=
  inl (round4 lat, round4 lon).

(** [cache_key in self.cache] and [self.cache[cache_key]] for the key of
    a call: a key that holds a NaN is never found. *)
Definition cache_get (lat lon : number) (entries : gmap key loc)
  : option loc :=
  match lat, lon with
  | Num lat, Num lon => entries !! cache_key lat lon
  | _, _ => None
  end.

(** The numbers of the entries whose key holds a NaN. *)
Definition nan_entries (entries : gmap key loc) : gset nat :=
  set_omap (λ k : key, match k with inr n => Some n | inl _ => None end)
    (dom entries).

(** The key under which [self.cache[cache_key] = ...] stores: with a NaN
    in it, a key that the cache does not have yet. *)
Definition stored_key (lat lon : number) (entries : gmap key loc) : key :=
  match lat, lon with
  | Num lat, Num lon => cache_key lat lon
  | _, _ => inr (fresh (nan_entries entries))
  end.

Definition range (n : Z) : list Z := Z.of_nat <$> seq 0 (Z.to_nat n).

(** The dictionary built from a decoded response. *)
Definition success_result (lat lon : number) (data : json_data) : result :=
  let address := default ∅ (data_address data) in
  {| latitude := lat;
     longitude := lon;
     city := _extract_city address;
     state := address !! "state";
     country := address !! "country";
     country_code := Some (upper (default "" (address !! "country_code")));
     postcode := address !! "postcode";
     display_name := data_display_name data;
     status := "success" |}.

Definition error_result (lat lon : number) (last_error : option string)
  : result :=
  {| latitude := lat;
     longitude := lon;
     city := None;
     state := None;
     country := None;
     country_code := None;
     postcode := None;
     display_name := None;
     status := "error: " +:+ str last_error |}.

(** The loop [for attempt in range(max_retries)], over the attempts that
    remain.  [inl l] is a [return] from inside the loop, [inr last_error]
    is the loop running to its end. *)
Fixpoint retry_loop (attempts : list Z) (max_retries : Z) (lat lon : number)
    (last_error : option string) (self : ReverseGeocoder) (w : world)
  : (loc + option string) * ReverseGeocoder * world :=
  match attempts with
  | [] => (inr last_error, self, w)
  | attempt :: rest =>
      let w := time_sleep 1 w in
      let '(resp, w) := session_get lat lon w in
      match resp with
      | Response data =>
          let '(result, w) := new_dict (success_result lat lon data) w in
          let '(copy, w) := dict_copy result w in
          let self :=
            {| cache := <[stored_key lat lon (cache self) := copy]>
                          (cache self);
               cache_hits := cache_hits self;
               cache_misses := cache_misses self |} in
          (inl result, self, w)
      | RequestException e =>
          let w :=
            if (attempt <? max_retries - 1)%Z
            then time_sleep (2 ^ (attempt + 1)) w
            else w in
          retry_loop rest max_retries lat lon (Some e) self w
      end
  end.

Definition reverse_geocode (lat lon : number) (max_retries : Z)
    (self : ReverseGeocoder) (w : world) : loc * ReverseGeocoder * world :=
  match cache_get lat lon (cache self) with
  | Some template =>
      let self :=
        {| cache := cache self;
           cache_hits := cache_hits self + 1;
           cache_misses := cache_misses self |} in
      let '(cached_result, w) := dict_copy template w in
      let w := dict_set cached_result (set_latitude lat) w in
      let w := dict_set cached_result (set_longitude lon) w in
      (cached_result, self, w)
  | None =>
      let self :=
        {| cache := cache self;
           cache_hits := cache_hits self;
           cache_misses := cache_misses self + 1 |} in
      match retry_loop (range max_retries) max_retries lat lon None self w with
      | (inl result, self, w) => (result, self, w)
      | (inr last_error, self, w) =>
          let '(error_result, w) :=
            new_dict (error_result lat lon last_error) w in
          (error_result, self, w)
      end
  end.

(** [get_cache_stats]: hits, misses, size, total_requests. *)
Definition get_cache_stats (self : ReverseGeocoder) : Z * Z * Z * Z :=
  (cache_hits self, cache_misses self, Z.of_nat (size (cache self)),
   cache_hits self + cache_misses self)%Z.

Definition clear_cache (self : ReverseGeocoder) : ReverseGeocoder :=
  {| cache := ∅; cache_hits := 0; cache_misses := 0 |}.

(** ** pandas *)

Definition result_columns : list string :=
  ["latitude"; "longitude"; "city"; "state"; "country"; "country_code";
   "postcode"; "display_name"; "status"].

Definition opt_cell (o : option string) : cell :=
  match o with
  | Some s => CStr s
  | None => CNone
  end.

(** The place fields of a result and its status: the seven columns that
    the output adds to the input. *)
Definition place_cells (r : result) : list cell :=
  [opt_cell (city r); opt_cell (state r); opt_cell (country r);
   opt_cell (country_code r); opt_cell (postcode r);
   opt_cell (display_name r); CStr (status r)].

Definition number_cell (x : number) : cell :=
  match x with
  | Num x => CFloat x
  | NaN => CNone
  end.

Definition result_row (r : result) : list cell :=
  number_cell (latitude r) :: number_cell (longitude r) :: place_cells r.

(** [pd.DataFrame(results)] for a list of result dictionaries: the
    columns are the keys of the dictionaries, which all have the same
    nine; an empty list gives a frame with no column and no row. *)
Definition pd_DataFrame (results : list result) : DataFrame :=
  match results with
  | [] => {| columns := []; data := [] |}
  | _ :: _ => {| columns := result_columns; data := result_row <$> results |}
  end.

Definition len (df : DataFrame) : Z := Z.of_nat (length (data df)).

(** [df.iloc[:n]] *)
Definition iloc (n : Z) (df : DataFrame) : DataFrame :=
  {| columns := columns df; data := take (Z.to_nat n) (data df) |}.

(** The elements of [l] at the positions where [mask] is true. *)
Fixpoint select {A} (mask : list bool) (l : list A) : list A :=
  match mask, l with
  | b :: mask, x :: l => if b then x :: select mask l else select mask l
  | _, _ => []
  end.

Definition quoted (s : string) : string := "'" +:+ s +:+ "'".

(** [df.drop(labels, axis=1)]: a [KeyError] when a label is not a column,
    otherwise the frame without the columns so labelled. *)
Definition drop (labels : list string) (df : DataFrame) : exn + DataFrame :=
  let missing := filter (λ l, l ∉ columns df) labels in
  match missing with
  | [] =>
      let mask := (λ c, bool_decide (c ∉ labels)) <$> columns df in
      inr {| columns := select mask (columns df);
             data := select mask <$> data df |}
  | _ :: _ =>
      inl (KeyError ("[" +:+ join ", " (quoted <$> missing)
                     +:+ "] not found in axis"))
  end.

(** Rows [length l .. n-1] of a frame of width [width] that has only
    [length l] rows: missing values. *)
Definition pad (width n : nat) (l : list (list cell)) : list (list cell) :=
  l ++ replicate (n - length l) (replicate width CNone).

(** [pd.concat([a, b], axis=1)] of two frames with a [RangeIndex]: the
    rows are aligned on the index, and an index that only one frame has
    gets missing values in the columns of the other. *)
Definition concat (a b : DataFrame) : DataFrame :=
  let n := length (data a) `max` length (data b) in
  {| columns := columns a ++ columns b;
     data := zip_with app (pad (length (columns a)) n (data a))
                          (pad (length (columns b)) n (data b)) |}.

(** [row[column]]: the cell of the row under the first column so
    labelled. *)
Definition row_get (df : DataFrame) (row : list cell) (column : string)
  : option cell :=
  '(i, _) ← list_find (λ c, c = column) (columns df);
  row !! i.

(** ** Computations that may raise *)

Definition M (A : Type) : Type :=
  ReverseGeocoder → world → (exn + A) * ReverseGeocoder * world.

Definition M_ret {A} (a : A) : M A := λ self w, (inr a, self, w).

Definition M_bind {A B} (k : A → M B) (c : M A) : M B :=
  λ self w,
    match c self w with
    | (inl e, self, w) => (inl e, self, w)
    | (inr a, self, w) => k a self w
    end.

#[export] Instance M_mret : MRet M := @M_ret.
#[export] Instance M_mbind : MBind M := @M_bind.

Definition raise {A} (e : exn) : M A := λ self w, (inl e, self, w).

(** A value or an exception, as a computation. *)
Definition lift_exn {A} (x : exn + A) : M A := λ self w, (x, self, w).

(** A change of the world, as a computation. *)
Definition do_world (f : world → world) : M unit :=
  λ self w, (inr (), self, f w).

(** Reading a result dictionary through its reference. *)
Definition deref (l : loc) : M result := λ self w, (inr (heap w !!! l), self, w).

Fixpoint deref_all (ls : list loc) : M (list result) :=
  match ls with
  | [] => M_ret []
  | l :: ls =>
      r ← deref l;
      rs ← deref_all ls;
      M_ret (r :: rs)
  end.

(** [pd.read_csv(path)]; parsing is outside the model, files hold
    tables. *)
Definition read_csv (path : string) : M DataFrame :=
  λ self w,
    match files w !! path with
    | Some df => (inr df, self, w)
    | None => (inl (FileNotFoundError path), self, w)
    end.

(** [df.to_csv(path, index=False)]: the file is replaced. *)
Definition to_csv (path : string) (df : DataFrame) : M unit :=
  do_world (λ w, set_files (<[path := df]> (files w)) w).

(** [os.unlink(path)] *)
Definition unlink (path : string) : M unit :=
  do_world (λ w, set_files (delete path (files w)) w).

(** The coordinate of a row: [row[column]], which [reverse_geocode] then
    passes to [round].  A label that is no column is a [KeyError]; a
    string makes [round] raise a [TypeError], before [reverse_geocode]
    has done anything else.  A blank cell is NaN, which [round] accepts:
    the call is made with it. *)
Definition row_float (df : DataFrame) (row : list cell) (column : string)
  : M number :=
  match row_get df row column with
  | Some (CFloat x) => M_ret (Num x)
  | Some CNone => M_ret NaN
  | Some (CStr _) =>
      raise (TypeError "type str doesn't define __round__ method")
  | None => raise (KeyError column)
  end.

(** [self.reverse_geocode(lat, lon)], with the default [max_retries=3]. *)
Definition call_reverse_geocode (lat lon : number) : M loc :=
  λ self w,
    let '(l, self, w) := reverse_geocode lat lon 3 self w in
    (inr l, self, w).

(** ** geocoder.py: [process_csv] *)

(** The loop [for idx, row in df.iterrows()] of [process_csv], over the
    rows that remain. *)
Fixpoint process_csv_rows (df : DataFrame) (lat_column lon_column : string)
    (rows : list (list cell)) (results : list loc) (successful_count : Z)
  : M (list loc * Z) :=
  match rows with
  | [] => M_ret (results, successful_count)
  | row :: rest =>
      lat ← row_float df row lat_column;
      lon ← row_float df row lon_column;
      result ← call_reverse_geocode lat lon;
      let results := results ++ [result] in
      r ← deref result;
      let successful_count :=
        if decide (status r = "success")
        then (successful_count + 1)%Z else successful_count in
      process_csv_rows df lat_column lon_column rest results successful_count
  end.

Definition process_csv (input_file output_file : string)
    (lat_column lon_column : string) : M (Z * Z) :=
  df ← read_csv input_file;
  if decide (lat_column ∉ columns df ∨ lon_column ∉ columns df)
  then raise (ValueError ("Columns '" +:+ lat_column +:+ "' and/or '"
                          +:+ lon_column +:+ "' not found in CSV"))
  else
    let total_count := len df in
    '(results, successful_count) ←
      process_csv_rows df lat_column lon_column (data df) [] 0;
    rs ← deref_all results;
    let results_df := pd_DataFrame rs in
    dropped ← lift_exn (drop ["latitude"; "longitude"] results_df);
    let output_df := concat df dropped in
    to_csv output_file output_df;;
    M_ret (successful_count, total_count).

(** ** app.py: [process_geocoding] *)

Definition batch_save_interval : Z := 50.

Definition get_self : M ReverseGeocoder := λ self w, (inr self, self, w).

Definition get_file (path : string) : M (option DataFrame) :=
  λ self w, (inr (files w !! path), self, w).

(** The body of [if processed % batch_save_interval == 0 or processed ==
    total_rows]: the rows processed so far with their results, written
    over the output file. *)
Definition save_progress (df : DataFrame) (output_path : string)
    (results : list loc) (processed : Z) : M unit :=
  rs ← deref_all results;
  let temp_results_df := pd_DataFrame rs in
  dropped ← lift_exn (drop ["latitude"; "longitude"] temp_results_df);
  let temp_output_df := concat (iloc processed df) dropped in
  to_csv output_path temp_output_df;;
  do_world (st_write (st_caption
    ("💾 Progress auto-saved at row " +:+ pretty processed))).

(** The loop [for idx, row in df.iterrows()] of [process_geocoding],
    over the rows that remain.  The status line with its estimate of the
    remaining time and the progress bar are not modelled. *)
Fixpoint process_geocoding_rows (df : DataFrame)
    (lat_column lon_column output_path : string) (total_rows : Z)
    (rows : list (list cell)) (results : list loc) (processed : Z)
  : M (list loc * Z) :=
  match rows with
  | [] => mret (results, processed)
  | row :: rest =>
      lat ← row_float df row lat_column;
      lon ← row_float df row lon_column;
      result ← call_reverse_geocode lat lon;
      let results := results ++ [result] in
      let processed := (processed + 1)%Z in
      (if decide ((processed `mod` batch_save_interval)%Z = 0%Z
                  ∨ processed = total_rows)
       then save_progress df output_path results processed
       else mret ());;
      process_geocoding_rows df lat_column lon_column output_path total_rows
        rest results processed
  end.

(** The body of the [try] of [process_geocoding], on the geocoder it
    creates.  The copy of the upload to a temporary input file, which is
    never read, is not modelled; [output_path] is the name of the
    temporary output file. *)
Definition process_geocoding_try (df : DataFrame)
    (lat_column lon_column output_path : string) : M unit :=
  let total_rows := len df in
  '(results, processed) ←
    process_geocoding_rows df lat_column lon_column output_path total_rows
      (data df) [] 0;
  rs ← deref_all results;
  let results_df := pd_DataFrame rs in
  dropped ← lift_exn (drop ["latitude"; "longitude"] results_df);
  let output_df := concat df dropped in
  to_csv output_path output_df;;
  let successful_count :=
    Z.of_nat (length (filter (λ r, status r = "success") rs)) in
  do_world (st_write (st_complete successful_count total_rows));;
  geocoder ← get_self;
  (if decide (cache_hits geocoder > 0)%Z
   then do_world (st_write (st_cache_saved (cache_hits geocoder)))
   else mret ());;
  do_world (st_write (st_dataframe output_df));;
  content ← get_file output_path;
  do_world (st_write (st_download_button content));;
  unlink output_path.

Definition process_geocoding (df : DataFrame)
    (lat_column lon_column output_path : string) (w : world) : world :=
  match process_geocoding_try df lat_column lon_column output_path
          __init__ w with
  | (inr _, _, w) => w
  | (inl e, _, w) => st_write (st_exception "❌ Error during geocoding: " e) w
  end.

(** ** app.py: [main] *)

(** [{col.lower(): col for col in df.columns}]: a later column replaces
    an earlier one with the same lower-case name. *)
Definition column_map (cols : list string) : gmap string string :=
  foldl (λ m col, <[lower col := col]> m) ∅ cols.

(** [main], from the upload on: [uploaded_file] is the table read from
    the upload if there is one, [lat_column] and [lon_column] are the
    text inputs of the sidebar, [button] tells whether the start button
    is pressed.  Previews of the table are not modelled. *)
Definition main (uploaded_file : option DataFrame)
    (lat_column lon_column : string) (button : bool) (output_path : string)
    (w : world) : world :=
  match uploaded_file with
  | None => w
  | Some df =>
      let w := st_write (st_success ("✅ File uploaded successfully! Found "
                                     +:+ pretty (len df) +:+ " rows.")) w in
      let column_map := column_map (columns df) in
      let actual_lat_column := column_map !! lower lat_column in
      let actual_lon_column := column_map !! lower lon_column in
      match actual_lat_column, actual_lon_column with
      | Some actual_lat_column, Some actual_lon_column =>
          let w := st_write (st_success
            ("✅ Found required columns: '" +:+ actual_lat_column
             +:+ "' and '" +:+ actual_lon_column +:+ "'")) w in
          if button
          then process_geocoding df actual_lat_column actual_lon_column
                 output_path w
          else w
      | _, _ =>
          let w := st_write (st_error
            ("❌ Columns '" +:+ lat_column +:+ "' and/or '" +:+ lon_column
             +:+ "' not found in CSV file!")) w in
          st_write (st_info ("Available columns: "
                             +:+ join ", " (columns df))) w
      end
  end.

(** ** Callers of the geocoder *)

(** What a caller can do with one geocoder: call its methods, and assign
    to the items of a result dictionary it has received. *)
Inductive op :=
  | Call_reverse_geocode (lat lon : number) (max_retries : Z)
  | Call_get_cache_stats
  | Call_clear_cache
  | Call_process_csv (input_file output_file lat_column lon_column : string)
  | Mutate_result (i : nat) (f : result → result).

(** The geocoder, the world, and the references the caller holds, in
    the order received. *)
Record client := {
  geocoder : ReverseGeocoder;
  env : world;
  held : list loc
}.

Definition step (c : client) (o : op) : client :=
  match o with
  | Call_reverse_geocode lat lon max_retries =>
      let '(l, self, w) :=
        reverse_geocode lat lon max_retries (geocoder c) (env c) in
      {| geocoder := self; env := w; held := held c ++ [l] |}
  | Call_get_cache_stats =>
      let _ := get_cache_stats (geocoder c) in c
  | Call_clear_cache =>
      {| geocoder := clear_cache (geocoder c); env := env c; held := held c |}
  | Call_process_csv input_file output_file lat_column lon_column =>
      let '(_, self, w) :=
        process_csv input_file output_file lat_column lon_column
          (geocoder c) (env c) in
      {| geocoder := self; env := w; held := held c |}
  | Mutate_result i f =>
      match held c !! i with
      | Some l =>
          {| geocoder := geocoder c; env := dict_set l f (env c);
             held := held c |}
      | None => c
      end
  end.

Definition run (ops : list op) (c : client) : client := foldl step c ops.

(** A new geocoder in a world [w], with a caller that holds nothing. *)
Definition start (w : world) : client :=
  {| geocoder := __init__; env := w; held := [] |}.

(** ** Predicates on states *)

(** Every entry of the cache refers to a dictionary with status
    ["success"]. *)
Definition cache_ok (self : ReverseGeocoder) (w : world) : Prop :=
  ∀ k l, cache self !! k = Some l →
    ∃ r, heap w !! l = Some r ∧ status r = "success".

(** No entry of the cache is a dictionary the caller holds, and what
    the caller holds is on the heap. *)
Definition cache_private (self : ReverseGeocoder) (w : world)
    (held : list loc) : Prop :=
  (∀ k l, cache self !! k = Some l → l ∉ held)
  ∧ (∀ l, l ∈ held → l < length (heap w)).

(** The columns that the output adds to the input. *)
Definition place_columns : list string :=
  ["city"; "state"; "country"; "country_code"; "postcode"; "display_name";
   "status"].

(** The number in a cell, when there is one. *)
Definition cell_number (c : cell) : option number :=
  match c with
  | CFloat x => Some (Num x)
  | CNone => Some NaN
  | CStr _ => None
  end.

(** The coordinates of a row, when both cells hold a number. *)
Definition row_coordinates (df : DataFrame) (lat_column lon_column : string)
    (row : list cell) : option (number * number) :=
  lat ← row_get df row lat_column ≫= cell_number;
  lon ← row_get df row lon_column ≫= cell_number;
  Some (lat, lon).

(** No coordinate cell holds a string: every one holds a float or is
    blank. *)
Definition numbers (df : DataFrame) (lat_column lon_column : string) : Prop :=
  Forall (λ row, is_Some (row_coordinates df lat_column lon_column row))
    (data df).

(** The coordinates of a row are two floats other than NaN. *)
Definition floats (df : DataFrame) (lat_column lon_column : string)
    (row : list cell) : Prop :=
  ∃ lat lon : float,
    row_coordinates df lat_column lon_column row = Some (Num lat, Num lon).

(** Both coordinate columns hold such floats in every row. *)
Definition numeric (df : DataFrame) (lat_column lon_column : string) : Prop :=
  Forall (floats df lat_column lon_column) (data df).

(** The reference [l] is a result for the coordinates of [row]. *)
Definition geocoded (df : DataFrame) (lat_column lon_column : string)
    (w : world) (row : list cell) (l : loc) : Prop :=
  ∃ r, heap w !! l = Some r
       ∧ row_coordinates df lat_column lon_column row
         = Some (latitude r, longitude r).

(** A computation keeps a property of the geocoder and the world,
    whether it returns or raises. *)
Definition preserves {A} (P : ReverseGeocoder → world → Prop) (c : M A)
  : Prop :=
  ∀ self w x self' w', P self w → c self w = (x, self', w') → P self' w'.

(** The invariant of the cache, for a caller holding [held]. *)
Definition safe (held : list loc) (self : ReverseGeocoder) (w : world)
  : Prop :=
  cache_ok self w ∧ cache_private self w held.

(** Every exception a computation raises satisfies [Q]. *)
Definition raises_only {A} (Q : exn → Prop) (c : M A) : Prop :=
  ∀ self w e self' w', c self w = (inl e, self', w') → Q e.

Definition not_ValueError (e : exn) : Prop := ∀ msg, e ≠ ValueError msg.

(** Under the key [k] the cache has the dictionary [t], whose items are
    those of [r]. *)
Definition template_at (k : key) (t : loc) (r : result)
    (self : ReverseGeocoder) (w : world) : Prop :=
  cache self !! k = Some t ∧ heap w !! t = Some r.

(** The same place fields and status. *)
Definition same_place (r1 r2 : result) : Prop :=
  city r1 = city r2 ∧ state r1 = state r2 ∧ country r1 = country r2
  ∧ country_code r1 = country_code r2 ∧ postcode r1 = postcode r2
  ∧ display_name r1 = display_name r2 ∧ status r1 = status r2.

(** The ways the retry loop ends. *)
Inductive loop_end (lat lon : number) (self : ReverseGeocoder) (w : world)
  : loc + option string → ReverseGeocoder → world → Prop :=
  | loop_returns n data evs w' :
      (sent w ≤ n)%nat → provider n lat lon = Response data →
      heap w' = heap w ++ [success_result lat lon data;
                           success_result lat lon data] →
      log w' = log w ++ evs → files w' = files w → ui w' = ui w →
      loop_end lat lon self w (inl (length (heap w)))
        {| cache := <[stored_key lat lon (cache self)
                      := S (length (heap w))]> (cache self);
           cache_hits := cache_hits self;
           cache_misses := cache_misses self |} w'
  | loop_exhausted last_error evs w' :
      heap w' = heap w → log w' = log w ++ evs →
      (sent w ≤ sent w')%nat →
      files w' = files w → ui w' = ui w →
      loop_end lat lon self w (inr last_error) self w'.

(** The ways a call of [reverse_geocode] ends: a hit, a miss answered by
    the provider, a miss with every attempt failed. *)
Inductive call_end (lat lon : number) (self : ReverseGeocoder) (w : world)
  : loc → ReverseGeocoder → world → Prop :=
  | call_hit template w' :
      cache_get lat lon (cache self) = Some template →
      heap w' = heap w ++ [set_longitude lon
                             (set_latitude lat (heap w !!! template))] →
      log w' = log w → sent w' = sent w →
      files w' = files w → ui w' = ui w →
      call_end lat lon self w (length (heap w))
        {| cache := cache self; cache_hits := cache_hits self + 1;
           cache_misses := cache_misses self |} w'
  | call_miss_success n data evs w' :
      cache_get lat lon (cache self) = None →
      (sent w ≤ n)%nat → provider n lat lon = Response data →
      heap w' = heap w ++ [success_result lat lon data;
                           success_result lat lon data] →
      log w' = log w ++ evs → files w' = files w → ui w' = ui w →
      call_end lat lon self w (length (heap w))
        {| cache := <[stored_key lat lon (cache self)
                      := S (length (heap w))]> (cache self);
           cache_hits := cache_hits self;
           cache_misses := cache_misses self + 1 |} w'
  | call_miss_failure last_error evs w' :
      cache_get lat lon (cache self) = None →
      heap w' = heap w ++ [error_result lat lon last_error] →
      log w' = log w ++ evs → files w' = files w → ui w' = ui w →
      call_end lat lon self w (length (heap w))
        {| cache := cache self; cache_hits := cache_hits self;
           cache_misses := cache_misses self + 1 |} w'.

(** ** Measures of a run *)

(** What one failed attempt adds to the log: the pause, the request,
    and the wait [2 ** (attempt + 1)] if attempts remain. *)
Definition failed_attempt (max_retries : Z) (lat lon : number) (attempt : Z)
  : list event :=
  [Sleep 1; Get lat lon]
  ++ (if (attempt <? max_retries - 1)%Z
      then [Sleep (2 ^ (attempt + 1))] else []).

(** The seconds slept in a log. *)
Fixpoint total_sleep (evs : list event) : Z :=
  match evs with
  | [] => 0
  | Sleep secs :: evs => (secs + total_sleep evs)%Z
  | Get _ _ :: evs => total_sleep evs
  end.

(** Every request of a log comes right after a sleep of at least one
    second; [slept] tells whether such a sleep has just happened. *)
Fixpoint paced (slept : bool) (evs : list event) : bool :=
  match evs with
  | [] => true
  | Sleep secs :: evs => paced (bool_decide (1 ≤ secs)%Z) evs
  | Get _ _ :: evs => slept && paced false evs
  end.

(** The calls of [reverse_geocode] a caller has made since it created
    the geocoder or last cleared the cache. *)
Definition count_call (n : Z) (o : op) : Z :=
  match o with
  | Call_reverse_geocode _ _ _ => (n + 1)%Z
  | Call_clear_cache => 0%Z
  | _ => n
  end.

Definition calls_since_clear (ops : list op) : Z := foldl count_call 0%Z ops.

Definition is_process_csv (o : op) : bool :=
  match o with
  | Call_process_csv _ _ _ _ => true
  | _ => false
  end.

(** The keys of the cache under which the rows of a table are looked
    up, for the rows whose coordinates are floats other than NaN. *)
Definition row_keys (df : DataFrame) (lat_column lon_column : string)
    (rows : list (list cell)) : list key :=
  omap (λ row, match row_coordinates df lat_column lon_column row with
               | Some (Num lat, Num lon) => Some (cache_key lat lon)
               | _ => None
               end) rows.

(** The counters of a geocoder are in order. *)
Definition stats_ok (self : ReverseGeocoder) (w : world) : Prop :=
  (0 ≤ cache_hits self)%Z
  ∧ (Z.of_nat (size (cache self)) ≤ cache_misses self)%Z.



End Model.

(** ** A concrete instance: coordinates in millionths of a degree *)

Module Fixed.

(** [z / d] rounded to the nearest integer, halves to the even one. *)
Definition div_half_even (z d : Z) : Z :=
  let q := (z `div` d)%Z in
  let r := (z `mod` d)%Z in
  if (2 * r <? d)%Z then q
  else if (d <? 2 * r)%Z then (q + 1)%Z
  else if Z.even q then q else (q + 1)%Z.

(** Four decimals of a number with six. *)
Definition micro_round4 (z : Z) : Z := (100 * div_half_even z 100)%Z.

#[export] Instance micro_float : Float :=
  {| float := Z; round4 := micro_round4 |}.

Definition empty_world : world :=
  {| heap := []; sent := 0; log := []; files := ∅; ui := [] |}.

(** The literals of the examples are coordinates. *)
Definition Z_number (z : Z) : number := Num z.
Coercion Z_number : Z >-> number.

(** A provider that is down. *)
Definition down : nat → number → number → response :=
  λ n _ _, RequestException ("timeout " +:+ pretty n).

(** A provider that is down for the first [n] requests and then knows
    Paris and London. *)
Definition city_of (lat lon : number) : json_data :=
  if decide (lat = Num 48856600%Z)
  then {| data_address :=
            Some (<["city" := "Paris"]> (<["country_code" := "fr"]> ∅));
          data_display_name := Some "Paris, France" |}
  else {| data_address := Some {["city" := "London"]};
          data_display_name := Some "London, UK" |}.

Definition up_after (n : nat) : nat → number → number → response :=
  λ i lat lon,
    if decide (i < n) then RequestException ("timeout " +:+ pretty i)
    else Response (city_of lat lon).

(** A provider that finds nothing: an object without [address]. *)
Definition nowhere : nat → number → number → response :=
  λ _ _ _, Response {| data_address := None; data_display_name := None |}.

(** Tables. *)
Definition three_rows : DataFrame :=
  {| columns := ["id"; "latitude"; "longitude"];
     data := [[CStr "a"; CFloat 48856600%Z; CFloat 2352200%Z];
              [CStr "b"; CFloat 48856600%Z; CFloat 2352200%Z];
              [CStr "c"; CFloat 51507400%Z; CFloat (-127800)%Z]] |}.

Definition no_rows : DataFrame :=
  {| columns := ["latitude"; "longitude"]; data := [] |}.

Definition capitalised : DataFrame :=
  {| columns := ["Latitude"; "Longitude"];
     data := [[CFloat 48856600%Z; CFloat 2352200%Z]] |}.

(** 120 rows, one more hundredth of a degree of latitude per row. *)
Definition hundred_twenty : DataFrame :=
  {| columns := ["latitude"; "longitude"];
     data := (λ i, [CFloat (Z.of_nat i * 10000)%Z; CFloat 0%Z])
             <$> seq 0 120 |}.

Definition with_file (path : string) (df : DataFrame) : world :=
  {| heap := []; sent := 0; log := []; files := {[path := df]}; ui := [] |}.

(** The message of the [n]-th failure of a provider that is down. *)
Definition timeout (n : nat) : string := "timeout " +:+ pretty n.

(** A session with calls, a batch, a clearing and an assignment. *)
Definition session : list op :=
  [Call_reverse_geocode 48856600%Z 2352200%Z 3;
   Call_process_csv "in.csv" "out.csv" "latitude" "longitude";
   Mutate_result 0 (set_latitude 0%Z);
   Call_clear_cache;
   Call_reverse_geocode 51507400%Z (-127800)%Z 2].

(** Calls around a clearing. *)
Definition counted : list op :=
  [Call_reverse_geocode 48856600%Z 2352200%Z 3;
   Call_clear_cache;
   Call_reverse_geocode 48856600%Z 2352200%Z 3;
   Call_get_cache_stats;
   Call_reverse_geocode 48856604%Z 2352201%Z 3].

(** A batch and a clearing. *)
Definition batch_then_clear : list op :=
  [Call_process_csv "in.csv" "out.csv" "latitude" "longitude";
   Call_clear_cache].

(** A table with a blank latitude in its second row. *)
Definition with_blank : DataFrame :=
  {| columns := ["latitude"; "longitude"];
     data := [[CFloat 48856600%Z; CFloat 2352200%Z];
              [CNone; CFloat 2352200%Z];
              [CFloat 48856600%Z; CFloat 2352200%Z]] |}.

(** A table whose latitudes were read as strings, one of them being a
    word. *)
Definition with_word : DataFrame :=
  {| columns := ["latitude"; "longitude"];
     data := [[CStr "48.8566"; CFloat 2352200%Z];
              [CStr "north"; CFloat 2352200%Z]] |}.

(** Columns whose names differ in case only. *)
Definition two_latitudes : DataFrame :=
  {| columns := ["lat"; "LAT"; "lon"];
     data := [[CStr "north"; CFloat 48856600%Z; CFloat 2352200%Z]] |}.

End Fixed.

(** * Properties *)

Section Properties.
Context `{Float}.
Variable provider : nat → number → number → response.

Lemma triple_eta {A B C} (p : A * B * C) : p = (p.1.1, p.1.2, p.2).
Proof. by destruct p as [[a b] c]. Qed.

(** ** The heap *)

Lemma alter_last (f : result → result) (h : list result) r :
  alter f (length h) (h ++ [r]) = h ++ [f r].
Proof.
  replace (length h) with (length h + 0) by lia.
  by rewrite alter_app_r.
Qed.

Lemma lookup_total_last (h : list result) r : (h ++ [r]) !!! length h = r.
Proof. apply list_lookup_total_middle. reflexivity. Qed.

(** ** What one call of [reverse_geocode] does *)

(** A call that is a miss stores under a key that the cache does not
    have. *)
Lemma stored_key_fresh (lat lon : number) (m : gmap key loc) :
  cache_get lat lon m = None → m !! stored_key lat lon m = None.
Proof.
  intros Hmiss. unfold stored_key.
  assert (m !! inr (fresh (nan_entries m)) = None) as Hfresh.
  { apply not_elem_of_dom. intros Hdom.
    apply (is_fresh (nan_entries m)).
    apply elem_of_set_omap. by eexists (inr _). }
  by destruct lat, lon.
Qed.

(** What a lookup finds is an entry of the cache. *)
Lemma cache_get_Some (lat lon : number) (m : gmap key loc) t :
  cache_get lat lon m = Some t → ∃ k, m !! k = Some t.
Proof. destruct lat, lon; cbn; try done. by eexists. Qed.

(** A hit: one new dictionary, a copy of the template with the
    coordinates of the call; nothing else changes but the counter. *)
Lemma reverse_geocode_hit lat lon max_retries self w template :
  cache_get lat lon (cache self) = Some template →
  reverse_geocode provider lat lon max_retries self w =
    (length (heap w),
     {| cache := cache self; cache_hits := cache_hits self + 1;
        cache_misses := cache_misses self |},
     set_heap (heap w ++ [set_longitude lon
                            (set_latitude lat (heap w !!! template))]) w).
Proof.
  intros Hhit. unfold reverse_geocode. rewrite Hhit.
  unfold dict_copy, new_dict, dict_set, set_heap. cbn.
  by rewrite !alter_last.
Qed.

Lemma retry_loop_end attempts max_retries lat lon last_error self w :
  let '(x, self', w') :=
    retry_loop provider attempts max_retries lat lon last_error self w in
  loop_end provider lat lon self w x self' w'.
Proof.
  revert last_error w.
  induction attempts as [|attempt rest IH]; intros last_error w; cbn.
  - apply (loop_exhausted _ _ _ _ _ _ []); by rewrite ?app_nil_r.
  - destruct (provider (sent w) lat lon) as [data|e] eqn:Hresp; cbn.
    + rewrite lookup_total_last, length_app, Nat.add_1_r.
      apply (loop_returns _ _ _ _ _ (sent w) data [Sleep 1; Get lat lon]); cbn;
        by rewrite <-?app_assoc.
    + set (w1 := if (attempt <? max_retries - 1)%Z then _ else _).
      assert (heap w1 = heap w ∧ files w1 = files w ∧ ui w1 = ui w
              ∧ sent w1 = S (sent w) ∧ ∃ evs, log w1 = log w ++ evs)
        as (Hh & Hf & Hu & Hs & evs & Hl).
      { subst w1. destruct (attempt <? max_retries - 1)%Z; cbn.
        - repeat split; try done. eexists. by rewrite <-!app_assoc.
        - repeat split; try done. eexists. by rewrite <-!app_assoc. }
      specialize (IH (Some e) w1).
      destruct (retry_loop provider rest max_retries lat lon (Some e) self w1)
        as [[x self'] w'].
      destruct IH as [n data' evs' w' Hn Hresp' Hh' Hl' Hf' Hu'
                     |le evs' w' Hh' Hl' Hs' Hf' Hu'].
      * rewrite Hh in *.
        apply (loop_returns _ _ _ _ _ n data' (evs ++ evs'));
          try congruence; try lia.
        by rewrite Hl', Hl, <-app_assoc.
      * apply (loop_exhausted _ _ _ _ _ _ (evs ++ evs'));
          try congruence; try lia.
        by rewrite Hl', Hl, <-app_assoc.
Qed.

Lemma reverse_geocode_end lat lon max_retries self w :
  let '(l, self', w') := reverse_geocode provider lat lon max_retries self w in
  call_end provider lat lon self w l self' w'.
Proof.
  destruct (cache_get lat lon (cache self)) as [template|] eqn:Hkey.
  - rewrite (reverse_geocode_hit _ _ _ _ _ _ Hkey).
    by eapply call_hit.
  - unfold reverse_geocode. rewrite Hkey.
    set (self1 := {| cache := cache self; cache_hits := cache_hits self;
                     cache_misses := (cache_misses self + 1)%Z |}).
    pose proof (retry_loop_end (range max_retries) max_retries lat lon None
                  self1 w) as Hloop.
    destruct (retry_loop provider (range max_retries) max_retries lat lon None
                self1 w) as [[x self'] w'].
    destruct Hloop as [n data evs w' Hn Hresp Hh Hl Hf Hu
                      |le evs w' Hh Hl Hs Hf Hu].
    + subst self1. cbn. by eapply (call_miss_success _ _ _ self w).
    + subst self1. cbn. rewrite Hh.
      eapply (call_miss_failure _ _ _ self w); cbn; done.
Qed.

(** Case analysis on the way a call ended. *)
Tactic Notation "call_cases" hyp(Hcall) "as" simple_intropattern(pat) :=
  lazymatch type of Hcall with
  | reverse_geocode ?p ?lat ?lon ?m ?self ?w = _ =>
      let E := fresh "E" in
      pose proof (reverse_geocode_end lat lon m self w) as E;
      rewrite Hcall in E;
      destruct E as pat;
      cbn [cache_get stored_key] in *
  end.
(** ** City extraction *)

Lemma first_present_split fields before field after (address : gmap string string) v :
  fields = before ++ field :: after →
  (∀ f, f ∈ before → address !! f = None) →
  address !! field = Some v →
  first_present fields address = Some v.
Proof.
  intros -> Hbefore Hfield.
  induction before as [|f before IH]; cbn.
  - by rewrite Hfield.
  - rewrite (Hbefore f) by set_solver. apply IH.
    intros f' Hf'. apply Hbefore. set_solver.
Qed.

Lemma first_present_none fields (address : gmap string string) :
  (∀ f, f ∈ fields → address !! f = None) →
  first_present fields address = None.
Proof.
  induction fields as [|f fields IH]; intros Hnone; cbn; [done|].
  rewrite (Hnone f) by set_solver. apply IH.
  intros f' Hf'. apply Hnone. set_solver.
Qed.

(** C5: the extracted city is the value of the first present field in
    the order city, town, village, municipality, hamlet: whenever the
    list of fields splits at a present field with only absent fields
    before it, that field's value is returned; if none of the five is
    present the result is [None].  The address with a town and a village
    gives the town, the empty address gives [None]. *)
Theorem extract_city_first_present (address : gmap string string) :
  city_fields = ["city"; "town"; "village"; "municipality"; "hamlet"]
  ∧ (∀ before field after v,
       city_fields = before ++ field :: after →
       (∀ f, f ∈ before → address !! f = None) →
       address !! field = Some v →
       _extract_city address = Some v)
  ∧ ((∀ f, f ∈ city_fields → address !! f = None) →
     _extract_city address = None)
  ∧ _extract_city {["town" := "Springfield"; "village" := "Shelbyville"]}
    = Some "Springfield"
  ∧ _extract_city ∅ = None.
Proof.
  split; [reflexivity|]. split; [|split; [|split]].
  - intros before field after v Hsplit Hbefore Hfield.
    by eapply first_present_split.
  - apply first_present_none.
  - reflexivity.
  - reflexivity.
Qed.

(** ** No attempts *)

(** C9: with [max_retries = 0] on a coordinate that is not cached, no
    request is sent and nothing sleeps, the miss counter goes up by one,
    and the result has every location field [None] and the status
    ["error: None"]. *)
Theorem reverse_geocode_no_attempts lat lon self w l self' w' :
  cache self !! cache_key lat lon = None →
  reverse_geocode provider lat lon 0 self w = (l, self', w') →
  log w' = log w ∧ sent w' = sent w
  ∧ cache_misses self' = (cache_misses self + 1)%Z
  ∧ cache_hits self' = cache_hits self
  ∧ cache self' = cache self
  ∧ heap w' !! l =
      Some {| latitude := lat; longitude := lon; city := None;
              state := None; country := None; country_code := None;
              postcode := None; display_name := None;
              status := "error: None" |}.
Proof.
  intros Hmiss. unfold reverse_geocode, cache_get. rewrite Hmiss. cbn.
  intros [= <- <- <-]. cbn. repeat split.
  by apply list_lookup_middle.
Qed.

(** ** Three failed attempts *)

(** One failed attempt: the pause, the request, the wait if attempts
    remain, and on to the next attempt. *)
Lemma retry_loop_fails attempt rest max_retries lat lon last_error self w e :
  provider (sent w) lat lon = RequestException e →
  retry_loop provider (attempt :: rest) max_retries lat lon last_error self w
  = retry_loop provider rest max_retries lat lon (Some e) self
      {| heap := heap w; sent := S (sent w);
         log := log w ++ [Sleep 1; Get lat lon]
                ++ (if (attempt <? max_retries - 1)%Z
                    then [Sleep (2 ^ (attempt + 1))] else []);
         files := files w; ui := ui w |}.
Proof.
  intros Hresp. cbn. rewrite Hresp.
  destruct (attempt <? max_retries - 1)%Z; unfold time_sleep; cbn;
    by rewrite <-?app_assoc.
Qed.

(** C3: with [max_retries = 3] on a coordinate that is not cached, when
    the three requests fail, the call sends exactly three requests, each
    after the one-second pause, with a wait of 2 seconds after the first
    failure and of 4 seconds after the second and none after the third;
    the result has the status ["error: "] followed by the message of the
    last failure and every location field [None]. *)
Theorem reverse_geocode_three_failures lat lon self w e1 e2 e3 l self' w' :
  cache self !! cache_key lat lon = None →
  provider (sent w) lat lon = RequestException e1 →
  provider (S (sent w)) lat lon = RequestException e2 →
  provider (S (S (sent w))) lat lon = RequestException e3 →
  reverse_geocode provider lat lon 3 self w = (l, self', w') →
  log w' = log w ++ [Sleep 1; Get lat lon; Sleep 2;
                     Sleep 1; Get lat lon; Sleep 4;
                     Sleep 1; Get lat lon]
  ∧ sent w' = 3 + sent w
  ∧ cache self' = cache self
  ∧ heap w' !! l =
      Some {| latitude := lat; longitude := lon; city := None;
              state := None; country := None; country_code := None;
              postcode := None; display_name := None;
              status := "error: " +:+ e3 |}.
Proof.
  intros Hmiss H1 H2 H3. unfold reverse_geocode, cache_get. rewrite Hmiss.
  change (range 3) with [0; 1; 2]%Z.
  rewrite (retry_loop_fails _ _ _ _ _ _ _ _ e1) by done. cbn [sent].
  rewrite (retry_loop_fails _ _ _ _ _ _ _ _ e2) by done. cbn [sent].
  rewrite (retry_loop_fails _ _ _ _ _ _ _ _ e3) by done.
  change (0 <? 3 - 1)%Z with true. change (1 <? 3 - 1)%Z with true.
  change (2 <? 3 - 1)%Z with false.
  change (2 ^ (0 + 1))%Z with 2%Z. change (2 ^ (1 + 1))%Z with 4%Z.
  cbn. intros [= <- <- <-]. cbn. rewrite <-!app_assoc. repeat split.
  by apply list_lookup_middle.
Qed.

(** ** Cache hits *)

Lemma hit_result lat lon max_retries self w template r l self' w' :
  cache self !! cache_key lat lon = Some template →
  heap w !! template = Some r →
  reverse_geocode provider lat lon max_retries self w = (l, self', w') →
  log w' = log w ∧ sent w' = sent w
  ∧ cache_hits self' = (cache_hits self + 1)%Z
  ∧ cache_misses self' = cache_misses self
  ∧ cache self' = cache self
  ∧ heap w' !! l = Some (set_longitude lon (set_latitude lat r)).
Proof.
  intros Hhit Hr. rewrite (reverse_geocode_hit lat lon _ _ _ _ Hhit).
  intros [= <- <- <-]. cbn. repeat split.
  rewrite (list_lookup_total_correct _ _ _ Hr).
  by apply list_lookup_middle.
Qed.

Lemma error_is_not_success (e : string) : "error: " +:+ e ≠ "success".
Proof. discriminate. Qed.

(** A call that returns a result with status ["success"] leaves an
    entry under its key whose dictionary has the place fields and the
    status of the result. *)
Lemma first_call_caches (lat lon : float) max_retries self w r1 self1 w1
    first :
  cache_ok self w →
  reverse_geocode provider lat lon max_retries self w = (r1, self1, w1) →
  heap w1 !! r1 = Some first →
  status first = "success" →
  ∃ t r, template_at (cache_key lat lon) t r self1 w1 ∧ same_place r first.
Proof.
  intros Hok H1 Hfirst Hsucc.
  call_cases H1 as [t w1 Ht Hh Hl Hs Hf Hu
                 |n data evs w1 Hmiss Hn Hresp Hh Hl Hf Hu
                 |le evs w1 Hmiss Hh Hl Hf Hu].
  - destruct (Hok _ _ Ht) as (r & Hr & _).
    rewrite (list_lookup_total_correct _ _ _ Hr) in Hh.
    rewrite Hh, list_lookup_middle in Hfirst by done.
    injection Hfirst as <-.
    exists t, r. split; [split; [done|]|by repeat split].
    rewrite Hh. by apply lookup_app_l_Some.
  - set (sr := success_result lat lon data) in *.
    rewrite Hh in Hfirst.
    rewrite (list_lookup_middle (heap w) [sr]) in Hfirst by done.
    injection Hfirst as <-.
    exists (S (length (heap w))), sr.
    split; [split|by repeat split].
    + cbn. apply lookup_insert_eq.
    + rewrite Hh, lookup_app_r by lia.
      by replace (S (length (heap w)) - length (heap w)) with 1 by lia.
  - exfalso. rewrite Hh, list_lookup_middle in Hfirst by done.
    injection Hfirst as <-. by apply error_is_not_success in Hsucc.
Qed.

(** A call keeps the entries of the cache and their dictionaries. *)
Lemma reverse_geocode_keeps_template k t r lat lon max_retries self w
    l self' w' :
  template_at k t r self w →
  reverse_geocode provider lat lon max_retries self w = (l, self', w') →
  template_at k t r self' w'.
Proof.
  intros [Hk Hr] H1.
  call_cases H1 as [t' w1 Ht Hh Hl Hs Hf Hu
                 |n data evs w1 Hmiss Hn Hresp Hh Hl Hf Hu
                 |le evs w1 Hmiss Hh Hl Hf Hu];
    (split; [|rewrite Hh; by apply lookup_app_l_Some]); cbn; try done.
  rewrite lookup_insert_ne; [done|]. intros <-.
  by rewrite (stored_key_fresh _ _ _ Hmiss) in Hk.
Qed.

(** ** Failures are not cached *)

Lemma range_pos n : (0 < n)%Z → ∃ rest, range n = 0%Z :: rest.
Proof.
  intros Hn. unfold range.
  destruct (Z.to_nat n) as [|k] eqn:Hk; [lia|].
  cbn. by eexists.
Qed.

Lemma retry_loop_begins attempt rest max_retries lat lon last_error self w :
  let '(_, _, w') :=
    retry_loop provider (attempt :: rest) max_retries lat lon last_error
      self w in
  ∃ evs, log w' = log w ++ Sleep 1 :: Get lat lon :: evs.
Proof.
  destruct (provider (sent w) lat lon) as [data|e] eqn:Hresp.
  - cbn. rewrite Hresp. cbn. exists []. by rewrite <-app_assoc.
  - rewrite (retry_loop_fails _ _ _ _ _ _ _ _ e Hresp).
    match goal with
    | |- context [retry_loop _ _ _ _ _ ?le _ ?w1] =>
        pose proof (retry_loop_end rest max_retries lat lon le self w1) as E;
        destruct (retry_loop provider rest max_retries lat lon le self w1)
          as [[x self'] w']
    end.
    destruct E as [n data evs w' _ _ _ Hl _ _|le evs w' _ Hl _ _ _];
      cbn in Hl; rewrite Hl, <-!app_assoc; cbn; by eexists.
Qed.

(** C2: when a call returns a result whose status begins with
    ["error:"], the call has left the cache as it was, with no entry
    under the rounded key; the next call with a coordinate of the same
    rounding is a miss (the miss counter goes up by one, the hit counter
    stays) and, when it has attempts ([0 < max_retries], as with the
    default 3), it pauses and sends a request again. *)
Theorem error_is_not_cached (lat lon : float) max_retries self w
    r1 self1 w1 res :
  cache_ok self w →
  reverse_geocode provider lat lon max_retries self w = (r1, self1, w1) →
  heap w1 !! r1 = Some res →
  startswith "error:" (status res) = true →
  cache self1 = cache self
  ∧ cache self1 !! cache_key lat lon = None
  ∧ ∀ lat2 lon2 m2 r2 self2 w2,
      cache_key lat2 lon2 = cache_key lat lon →
      reverse_geocode provider lat2 lon2 m2 self1 w1 = (r2, self2, w2) →
      cache_misses self2 = (cache_misses self1 + 1)%Z
      ∧ cache_hits self2 = cache_hits self1
      ∧ ((0 < m2)%Z →
         ∃ evs, log w2 = log w1 ++ Sleep 1 :: Get lat2 lon2 :: evs).
Proof.
  intros Hok H1 Hres Herr.
  call_cases H1 as [t w1 Ht Hh Hl Hs Hf Hu
                 |n data evs w1 Hmiss Hn Hresp Hh Hl Hf Hu
                 |le evs w1 Hmiss Hh Hl Hf Hu].
  - exfalso. destruct (Hok _ _ Ht) as (r & Hr & Hstatus).
    rewrite (list_lookup_total_correct _ _ _ Hr) in Hh.
    rewrite Hh, list_lookup_middle in Hres by done.
    injection Hres as <-. cbn in Herr. by rewrite Hstatus in Herr.
  - exfalso. rewrite Hh in Hres.
    rewrite (list_lookup_middle (heap w) [_]) in Hres by done.
    by injection Hres as <-.
  - cbn. split; [done|]. split; [done|].
    intros lat2 lon2 m2 r2 self2 w2 Hkey.
    unfold reverse_geocode, cache_get. cbn.
    rewrite Hkey, Hmiss.
    match goal with
    | |- context [retry_loop _ _ _ _ _ _ ?s _] => set (self1 := s)
    end.
    destruct (retry_loop provider (range m2) m2 lat2 lon2 None self1 w1)
      as [[x self3] w3] eqn:Hloop.
    pose proof (retry_loop_end (range m2) m2 lat2 lon2 None self1 w1) as E2.
    rewrite Hloop in E2.
    assert ((0 < m2)%Z → ∃ evs, log w3 = log w1 ++ Sleep 1 :: Get lat2 lon2 :: evs)
      as Hbegin.
    { intros Hm2. destruct (range_pos _ Hm2) as [rest Hrange].
      pose proof (retry_loop_begins 0%Z rest m2 lat2 lon2 None self1 w1) as B.
      rewrite <-Hrange, Hloop in B. exact B. }
    destruct E2 as [n data evs2 w3 _ _ _ _ _ _|le2 evs2 w3 _ _ _ _ _].
    + intros [= <- <- <-]. cbn. repeat split; done.
    + intros [= <- <- <-]. cbn. repeat split; done.
Qed.

(** ** The invariant of the cache *)

Lemma cache_ok_init w : cache_ok __init__ w.
Proof. intros k l Hk. cbn in Hk. by rewrite lookup_empty in Hk. Qed.

Lemma cache_ok_bound self w k l :
  cache_ok self w → cache self !! k = Some l → l < length (heap w).
Proof.
  intros Hok Hk. destruct (Hok _ _ Hk) as (r & Hr & _).
  by eapply lookup_lt_Some.
Qed.

Lemma safe_weaken held l self w : safe (held ++ [l]) self w → safe held self w.
Proof.
  intros (Hok & Hout & Hin). split; [done|]. split.
  - intros k l' Hk Hl'. apply (Hout _ _ Hk). set_solver.
  - intros l' Hl'. apply Hin. set_solver.
Qed.

Lemma safe_heap_app held self w w' new :
  heap w' = heap w ++ new → safe held self w → safe held self w'.
Proof.
  intros Hh (Hok & Hout & Hin). split; [|split; [done|]].
  - intros k l Hk. destruct (Hok _ _ Hk) as (r & Hr & Hs).
    exists r. split; [|done]. rewrite Hh. by apply lookup_app_l_Some.
  - intros l Hl. rewrite Hh, length_app. specialize (Hin _ Hl). lia.
Qed.

(** A call keeps the invariant, and the reference it returns is new: it
    can be added to what the caller holds. *)
Lemma reverse_geocode_safe lat lon max_retries held self w l self' w' :
  safe held self w →
  reverse_geocode provider lat lon max_retries self w = (l, self', w') →
  safe (held ++ [l]) self' w'.
Proof.
  intros (Hok & Hout & Hin) H1.
  pose proof (reverse_geocode_end lat lon max_retries self w) as E1.
  rewrite H1 in E1.
  assert (∀ k l', cache self !! k = Some l' → l' ∉ held ++ [length (heap w)])
    as Hout'.
  { intros k l' Hk [Hl'| ->%list_elem_of_singleton]%elem_of_app.
    - by apply (Hout _ _ Hk).
    - pose proof (cache_ok_bound _ _ _ _ Hok Hk). lia. }
  assert (∀ new l', l' ∈ held ++ [length (heap w)] → new ≠ [] →
            l' < length (heap w ++ new)) as Hin'.
  { intros new l' [Hl'| ->%list_elem_of_singleton]%elem_of_app Hnew;
      rewrite length_app.
    - specialize (Hin _ Hl'). lia.
    - destruct new; [done|]. cbn. lia. }
  destruct E1 as [t w1 Ht Hh Hl Hs Hf Hu
                 |n data evs w1 Hmiss Hn Hresp Hh Hl Hf Hu
                 |le evs w1 Hmiss Hh Hl Hf Hu].
  - split; [|split].
    + by apply (safe_heap_app held self w w1 _ Hh).
    + done.
    + intros l' Hl'. rewrite Hh. by apply Hin'.
  - split; [|split].
    + intros k l'. cbn. rewrite lookup_insert.
      case_decide as Hk; [intros [= <-]|intros Hl'].
      * exists (success_result lat lon data). split; [|done].
        rewrite Hh, lookup_app_r by lia.
        by replace (S (length (heap w)) - length (heap w)) with 1 by lia.
      * destruct (Hok _ _ Hl') as (r & Hr & Hstatus).
        exists r. split; [|done]. rewrite Hh. by apply lookup_app_l_Some.
    + intros k l'. cbn. rewrite lookup_insert.
      case_decide as Hk; [intros [= <-]|by apply Hout'].
      intros [Hl'|Hl'%list_elem_of_singleton]%elem_of_app; [|lia].
      specialize (Hin _ Hl'). lia.
    + intros l' Hl'. rewrite Hh. by apply Hin'.
  - split; [|split].
    + by apply (safe_heap_app held self w w1 _ Hh).
    + done.
    + intros l' Hl'. rewrite Hh. by apply Hin'.
Qed.

(** *** Computations that keep a property *)

Lemma preserves_bind {A B} P (c : M A) (k : A → M B) :
  preserves P c → (∀ a, preserves P (k a)) → preserves P (c ≫= k).
Proof.
  intros Hc Hk self w x self' w' HP.
  unfold mbind, M_mbind, M_bind.
  destruct (c self w) as [[[e|a] self1] w1] eqn:E.
  - intros [= <- <- <-]. by eapply Hc.
  - intros E2. eapply Hk; [|exact E2]. by eapply Hc.
Qed.

Lemma preserves_ret {A} P (a : A) : preserves P (mret a).
Proof. by intros self w x self' w' HP [= <- <- <-]. Qed.

Lemma preserves_raise {A} P e : preserves P (raise (A:=A) e).
Proof. by intros self w x self' w' HP [= <- <- <-]. Qed.

Lemma preserves_lift_exn {A} P (x : exn + A) : preserves P (lift_exn x).
Proof. by intros self w y self' w' HP [= <- <- <-]. Qed.

Lemma preserves_deref P l : preserves P (deref l).
Proof. by intros self w y self' w' HP [= <- <- <-]. Qed.

Lemma preserves_deref_all P ls : preserves P (deref_all ls).
Proof.
  induction ls as [|l ls IH]; cbn; [apply preserves_ret|].
  apply preserves_bind; [apply preserves_deref|intros r].
  apply preserves_bind; [done|intros rs]. apply preserves_ret.
Qed.

Lemma preserves_row_float P df row column :
  preserves P (row_float df row column).
Proof.
  unfold row_float.
  destruct (row_get df row column) as [[x|s|]|];
    (apply preserves_ret || apply preserves_raise).
Qed.

Lemma preserves_read_csv P path : preserves P (read_csv path).
Proof.
  intros self w x self' w' HP. unfold read_csv.
  by destruct (files w !! path); intros [= <- <- <-].
Qed.

Lemma preserves_do_world P f :
  (∀ self w, P self w → P self (f w)) → preserves P (do_world f).
Proof. intros Hf self w x self' w' HP [= <- <- <-]. by apply Hf. Qed.

Lemma preserves_call_reverse_geocode held lat lon :
  preserves (safe held) (call_reverse_geocode provider lat lon).
Proof.
  intros self w x self' w' HP. unfold call_reverse_geocode.
  destruct (reverse_geocode provider lat lon 3 self w) as [[l self1] w1] eqn:E.
  intros [= <- <- <-].
  eapply safe_weaken, reverse_geocode_safe; eauto.
Qed.

(** [process_csv] keeps what its calls of [reverse_geocode] keep, if
    writing a file keeps it. *)
Lemma preserves_process_csv_rows P df lat_column lon_column rows results n :
  (∀ lat lon, preserves P (call_reverse_geocode provider lat lon)) →
  preserves P
    (process_csv_rows provider df lat_column lon_column rows results n).
Proof.
  intros Hcall. revert results n.
  induction rows as [|row rest IH]; intros results n; cbn.
  - apply preserves_ret.
  - apply preserves_bind; [apply preserves_row_float|intros lat].
    apply preserves_bind; [apply preserves_row_float|intros lon].
    apply preserves_bind; [apply Hcall|intros l].
    apply preserves_bind; [apply preserves_deref|intros r].
    apply IH.
Qed.

Lemma preserves_process_csv P input_file output_file lat_column lon_column :
  (∀ lat lon, preserves P (call_reverse_geocode provider lat lon)) →
  (∀ self w f, P self w → P self (set_files f w)) →
  preserves P
    (process_csv provider input_file output_file lat_column lon_column).
Proof.
  intros Hcall Hfiles. unfold process_csv.
  apply preserves_bind; [apply preserves_read_csv|intros df].
  case_decide; [apply preserves_raise|].
  apply preserves_bind;
    [by apply preserves_process_csv_rows|intros [results n]].
  apply preserves_bind; [apply preserves_deref_all|intros rs].
  apply preserves_bind; [apply preserves_lift_exn|intros dropped].
  apply preserves_bind; [|intros _; apply preserves_ret].
  apply preserves_do_world. intros self w. apply Hfiles.
Qed.

(** Assigning to a dictionary the caller holds leaves the dictionaries of
    the cache as they are. *)
Lemma mutate_keeps_templates held self w l f k template :
  safe held self w → l ∈ held →
  cache self !! k = Some template →
  heap (dict_set l f w) !! template = heap w !! template.
Proof.
  intros (_ & Hout & _) Hl Hk. cbn.
  apply list_lookup_alter_ne. intros ->. by apply (Hout _ _ Hk).
Qed.

Lemma step_safe c o :
  safe (held c) (geocoder c) (env c) →
  safe (held (step provider c o)) (geocoder (step provider c o))
    (env (step provider c o)).
Proof.
  intros Hsafe. destruct o as [lat lon m| | |fin fout clat clon|i f]; cbn.
  - destruct (reverse_geocode provider lat lon m (geocoder c) (env c))
      as [[l self'] w'] eqn:E. cbn.
    by eapply reverse_geocode_safe.
  - done.
  - destruct Hsafe as (_ & _ & Hin). split; [|split; [|done]].
    + intros k l Hk. cbn in Hk. by rewrite lookup_empty in Hk.
    + intros k l Hk. cbn in Hk. by rewrite lookup_empty in Hk.
  - destruct (process_csv provider fin fout clat clon (geocoder c) (env c))
      as [[x self'] w'] eqn:E. cbn.
    eapply (preserves_process_csv (safe (held c))); [| |exact Hsafe|exact E].
    + apply preserves_call_reverse_geocode.
    + by intros self w f0 HP.
  - destruct (held c !! i) as [l|] eqn:Hi; [|done]. cbn.
    assert (l ∈ held c) as Hl by (by eapply list_elem_of_lookup_2).
    split; [|split].
    + intros k t Hk. cbn in Hk.
      destruct (proj1 Hsafe _ _ Hk) as (r & Hr & Hstatus).
      exists r. split; [|done]. rewrite <-Hr.
      by eapply mutate_keeps_templates.
    + by destruct Hsafe as (_ & Hout & _).
    + intros l' Hl'. cbn. rewrite length_alter.
      destruct Hsafe as (_ & _ & Hin). by apply Hin.
Qed.

Lemma run_safe ops c :
  safe (held c) (geocoder c) (env c) →
  safe (held (run provider ops c)) (geocoder (run provider ops c))
    (env (run provider ops c)).
Proof.
  revert c. induction ops as [|o ops IH]; intros c Hsafe; [done|].
  cbn. apply IH. by apply step_safe.
Qed.

(** ** Two calls with the same rounding *)

Lemma safe_start w : safe [] __init__ w.
Proof.
  split; [apply cache_ok_init|]. split.
  - intros k l Hk. cbn in Hk. by rewrite lookup_empty in Hk.
  - intros l Hl. by apply elem_of_nil in Hl.
Qed.

Lemma step_keeps_template c o k t r :
  o ≠ Call_clear_cache →
  safe (held c) (geocoder c) (env c) →
  template_at k t r (geocoder c) (env c) →
  template_at k t r (geocoder (step provider c o)) (env (step provider c o)).
Proof.
  intros Hclear Hsafe Htemplate.
  destruct o as [lat lon m| | |fin fout clat clon|i f]; cbn; try done.
  - destruct (reverse_geocode provider lat lon m (geocoder c) (env c))
      as [[l self'] w'] eqn:E. cbn.
    by eapply reverse_geocode_keeps_template.
  - destruct (process_csv provider fin fout clat clon (geocoder c) (env c))
      as [[x self'] w'] eqn:E. cbn.
    eapply (preserves_process_csv (template_at k t r));
      [| |exact Htemplate|exact E].
    + intros lat lon self w y self1 w1 HP. unfold call_reverse_geocode.
      destruct (reverse_geocode provider lat lon 3 self w)
        as [[l self2] w2] eqn:E2.
      intros [= <- <- <-]. by eapply reverse_geocode_keeps_template.
    + by intros self w f0 HP.
  - destruct (held c !! i) as [l|] eqn:Hi; [|done]. cbn -[dict_set].
    destruct Htemplate as [Hk Hr]. split; [done|]. rewrite <-Hr.
    eapply mutate_keeps_templates; [exact Hsafe| |exact Hk].
    by eapply list_elem_of_lookup_2.
Qed.

Lemma run_keeps_template ops c k t r :
  Call_clear_cache ∉ ops →
  safe (held c) (geocoder c) (env c) →
  template_at k t r (geocoder c) (env c) →
  template_at k t r (geocoder (run provider ops c))
    (env (run provider ops c)).
Proof.
  revert c. induction ops as [|o ops IH]; intros c Hclear Hsafe Ht; [done|].
  cbn. apply IH.
  - intros Hin. apply Hclear. by right.
  - by apply step_safe.
  - apply step_keeps_template; [|done..].
    intros ->. apply Hclear. by left.
Qed.

(** C1: take a call of [reverse_geocode] that returns a result with
    status ["success"], then any operations of the caller other than
    [clear_cache] (further calls, [get_cache_stats], [process_csv],
    assignments to results it holds), then a call whose coordinates have
    the same rounding at four decimals.  The second call is a cache hit:
    it sends no request and does not sleep, the hit counter goes up by
    exactly one and the miss counter stays, and its result carries the
    coordinates of the second call with the place fields and the status
    that the first result had when it was returned. *)
Theorem second_call_is_hit lat1 lon1 m1 lat2 lon2 m2 between c c2
    r1 self1 w1 first r2 self2 w2 :
  safe (held c) (geocoder c) (env c) →
  cache_key lat1 lon1 = cache_key lat2 lon2 →
  reverse_geocode provider lat1 lon1 m1 (geocoder c) (env c)
  = (r1, self1, w1) →
  heap w1 !! r1 = Some first →
  status first = "success" →
  Call_clear_cache ∉ between →
  c2 = run provider between
         {| geocoder := self1; env := w1; held := held c ++ [r1] |} →
  reverse_geocode provider lat2 lon2 m2 (geocoder c2) (env c2)
  = (r2, self2, w2) →
  log w2 = log (env c2) ∧ sent w2 = sent (env c2)
  ∧ cache_hits self2 = (cache_hits (geocoder c2) + 1)%Z
  ∧ cache_misses self2 = cache_misses (geocoder c2)
  ∧ ∃ second,
      heap w2 !! r2 = Some second
      ∧ latitude second = lat2 ∧ longitude second = lon2
      ∧ same_place second first.
Proof.
  intros Hsafe Hkey H1 Hfirst Hsucc Hclear -> H2.
  destruct (first_call_caches _ _ _ _ _ _ _ _ _ (proj1 Hsafe) H1 Hfirst Hsucc)
    as (t & r & Ht & Hsame).
  set (c1 := {| geocoder := self1; env := w1; held := held c ++ [r1] |}) in *.
  assert (safe (held c1) (geocoder c1) (env c1)) as Hsafe1
    by (by eapply reverse_geocode_safe).
  apply (run_keeps_template between c1) in Ht as [Hk Hr]; [|done..].
  rewrite Hkey in Hk.
  destruct (hit_result _ _ _ _ _ _ _ _ _ _ Hk Hr H2)
    as (? & ? & ? & ? & _ & Hsecond).
  repeat (split; [done|]).
  eexists. split; [exact Hsecond|].
  destruct Hsame as (? & ? & ? & ? & ? & ? & ?). by repeat split.
Qed.

(** C10: in every state that a caller reaches from a new geocoder by
    calls of [reverse_geocode], [get_cache_stats], [clear_cache] and
    [process_csv], and by assignments to the result dictionaries it has
    received, every entry of the cache is a dictionary with status
    ["success"], no entry of the cache is a dictionary the caller holds,
    and an assignment to a dictionary the caller holds changes no
    dictionary of the cache. *)
Theorem cache_entries_success_and_private ops w :
  let c := run provider ops (start w) in
  cache_ok (geocoder c) (env c)
  ∧ cache_private (geocoder c) (env c) (held c)
  ∧ ∀ i f k template,
      cache (geocoder c) !! k = Some template →
      heap (env (step provider c (Mutate_result i f))) !! template
      = heap (env c) !! template.
Proof.
  intros c.
  assert (safe (held c) (geocoder c) (env c)) as Hsafe.
  { apply run_safe, safe_start. }
  split; [apply Hsafe|]. split; [apply Hsafe|].
  intros i f k template Hk. cbn.
  destruct (held c !! i) as [l|] eqn:Hi; [|done]. cbn -[dict_set].
  eapply mutate_keeps_templates; eauto.
  by eapply list_elem_of_lookup_2.
Qed.

(** ** Looking up the coordinate columns *)

Lemma column_map_sound cols (m : gmap string string) key c :
  foldl (λ m col, <[lower col := col]> m) m cols !! key = Some c →
  (c ∈ cols ∧ lower c = key) ∨ m !! key = Some c.
Proof.
  revert m. induction cols as [|col cols IH]; intros m; cbn; [by right|].
  intros [[Hc Hkey]|Hm]%IH.
  - left. split; [|done]. set_solver.
  - rewrite lookup_insert in Hm. case_decide as Hcol.
    + injection Hm as <-. left. split; [|done]. set_solver.
    + by right.
Qed.

Lemma column_map_complete cols (m : gmap string string) key :
  (∃ c, c ∈ cols ∧ lower c = key) ∨ is_Some (m !! key) →
  is_Some (foldl (λ m col, <[lower col := col]> m) m cols !! key).
Proof.
  revert m. induction cols as [|col cols IH]; intros m; cbn.
  - intros [(c & Hc & _)|Hm]; [|done]. by apply elem_of_nil in Hc.
  - intros [(c & Hc & Hkey)|Hm]; apply IH.
    + apply elem_of_cons in Hc as [->|Hc].
      * right. rewrite Hkey. rewrite lookup_insert_eq. by eexists.
      * left. by exists c.
    + right. rewrite lookup_insert. by case_decide.
Qed.

Lemma raises_only_bind {A B} Q (c : M A) (k : A → M B) :
  raises_only Q c → (∀ a, raises_only Q (k a)) → raises_only Q (c ≫= k).
Proof.
  intros Hc Hk self w e self' w'. unfold mbind, M_mbind, M_bind.
  destruct (c self w) as [[[e1|a] self1] w1] eqn:E.
  - intros [= <- <- <-]. by eapply Hc.
  - apply Hk.
Qed.

Lemma raises_only_ret {A} Q (a : A) : raises_only Q (mret a).
Proof. by intros self w e self' w'. Qed.

Lemma raises_only_raise {A} (Q : exn → Prop) e :
  Q e → raises_only Q (raise (A:=A) e).
Proof. by intros HQ self w e' self' w' [= <- <- <-]. Qed.

Lemma raises_only_row_float df row column :
  raises_only not_ValueError (row_float df row column).
Proof.
  unfold row_float.
  destruct (row_get df row column) as [[x|s|]|];
    (apply raises_only_ret || by apply raises_only_raise).
Qed.

Lemma raises_only_deref_all Q ls : raises_only Q (deref_all ls).
Proof.
  induction ls as [|l ls IH]; cbn; [apply raises_only_ret|].
  apply raises_only_bind; [by intros self w e self' w'|intros r].
  apply raises_only_bind; [done|intros rs]. apply raises_only_ret.
Qed.

Lemma raises_only_process_csv_rows df lat_column lon_column rows results n :
  raises_only not_ValueError
    (process_csv_rows provider df lat_column lon_column rows results n).
Proof.
  revert results n.
  induction rows as [|row rest IH]; intros results n; cbn.
  - apply raises_only_ret.
  - apply raises_only_bind; [apply raises_only_row_float|intros lat].
    apply raises_only_bind; [apply raises_only_row_float|intros lon].
    apply raises_only_bind; [|intros l].
    { intros self w e self' w'. unfold call_reverse_geocode.
      by destruct (reverse_geocode provider lat lon 3 self w) as [[? ?] ?]. }
    apply raises_only_bind; [by intros self w e self' w'|intros r].
    apply IH.
Qed.

Lemma raises_only_drop labels df :
  raises_only not_ValueError (lift_exn (drop labels df)).
Proof.
  intros self w e self' w'. unfold lift_exn, drop.
  by destruct (filter _ labels); intros [= <- <- <-].
Qed.

(** C7, as the code has it.  In [main] the lookup of a column is
    case-insensitive and otherwise exact: a name is found exactly when
    some column has the same lower-case form, and what is found is such
    a column; when one of the two is not found, [main] reports the
    error and the available column names and does nothing else: no
    request, no sleep, no file.  In [process_csv] the lookup is exact,
    case included: a [ValueError] that names the two requested columns
    (not the available ones) is raised exactly when one of the two
    names is not a column label, and it is raised before anything else
    happens. *)
Theorem column_lookup :
  (∀ cols name,
     (is_Some (column_map cols !! lower name)
      ↔ ∃ c, c ∈ cols ∧ lower c = lower name)
     ∧ ∀ c, column_map cols !! lower name = Some c →
            c ∈ cols ∧ lower c = lower name)
  ∧ (∀ df lat_column lon_column button output_path w,
       column_map (columns df) !! lower lat_column = None
       ∨ column_map (columns df) !! lower lon_column = None →
       let w' := main provider (Some df) lat_column lon_column button
                   output_path w in
       log w' = log w ∧ sent w' = sent w ∧ heap w' = heap w
       ∧ files w' = files w
       ∧ ui w' = ui w ++
           [st_success ("✅ File uploaded successfully! Found "
                        +:+ pretty (len df) +:+ " rows.");
            st_error ("❌ Columns '" +:+ lat_column +:+ "' and/or '"
                      +:+ lon_column +:+ "' not found in CSV file!");
            st_info ("Available columns: " +:+ join ", " (columns df))])
  ∧ (∀ input_file output_file lat_column lon_column self w df,
       files w !! input_file = Some df →
       (lat_column ∉ columns df ∨ lon_column ∉ columns df →
        process_csv provider input_file output_file lat_column lon_column
          self w
        = (inl (ValueError ("Columns '" +:+ lat_column +:+ "' and/or '"
                            +:+ lon_column +:+ "' not found in CSV")),
           self, w))
       ∧ (lat_column ∈ columns df → lon_column ∈ columns df →
          ∀ msg, (process_csv provider input_file output_file lat_column
                    lon_column self w).1.1 ≠ inl (ValueError msg))).
Proof.
  split; [|split].
  - intros cols name. split; [split|].
    + intros [c Hc]. exists c.
      apply column_map_sound in Hc as [Hc|Hc]; [done|].
      by rewrite lookup_empty in Hc.
    + intros Hc. apply column_map_complete. by left.
    + intros c Hc. apply column_map_sound in Hc as [Hc|Hc]; [done|].
      by rewrite lookup_empty in Hc.
  - intros df lat_column lon_column button output_path w Hnone. cbn.
    destruct (column_map (columns df) !! lower lat_column) as [a|] eqn:Ha;
      destruct (column_map (columns df) !! lower lon_column) as [b|] eqn:Hb;
      try (by destruct Hnone);
      cbn; by rewrite <-!app_assoc.
  - intros input_file output_file lat_column lon_column self w df Hfile.
    split.
    + intros Hmissing. unfold process_csv, mbind, M_mbind, M_bind, read_csv.
      rewrite Hfile. by rewrite decide_True.
    + intros Hlat Hlon msg.
      destruct (process_csv provider input_file output_file lat_column
                  lon_column self w) as [[[e|x] self'] w'] eqn:E; [|done].
      cbn. intros [= ->]. revert E.
      unfold process_csv, mbind, M_mbind, M_bind, read_csv at 1.
      rewrite Hfile. rewrite decide_False by (intros [?|?]; done).
      intros E.
      assert (raises_only not_ValueError
                ('(results, successful_count) ←
                   process_csv_rows provider df lat_column lon_column
                     (data df) [] 0;
                 rs ← deref_all results;
                 dropped ← lift_exn (drop ["latitude"; "longitude"]
                                       (pd_DataFrame rs));
                 to_csv output_file (concat df dropped);;
                 mret (successful_count, len df))) as Hrest.
      { apply raises_only_bind;
          [apply raises_only_process_csv_rows|intros [results n]].
        apply raises_only_bind; [apply raises_only_deref_all|intros rs].
        apply raises_only_bind; [apply raises_only_drop|intros dropped].
        apply raises_only_bind; [by intros ? ? ? ? ?|intros _].
        apply raises_only_ret. }
      by apply (Hrest _ _ _ _ _ E msg).
Qed.

(** ** Batches *)

Lemma bind_inr {A B} (c : M A) (k : A → M B) self w a self1 w1 :
  c self w = (inr a, self1, w1) → (c ≫= k) self w = k a self1 w1.
Proof. intros E. unfold mbind, M_mbind, M_bind. by rewrite E. Qed.

Lemma deref_all_eq ls self w :
  deref_all ls self w = (inr ((heap w !!!.) <$> ls), self, w).
Proof.
  induction ls as [|l ls IH]; [done|]. cbn [deref_all].
  rewrite (bind_inr _ _ _ _ (heap w !!! l) self w) by done.
  by rewrite (bind_inr _ _ _ _ _ self w IH).
Qed.

Lemma drop_results rs :
  rs ≠ [] →
  drop ["latitude"; "longitude"] (pd_DataFrame rs)
  = inr {| columns := place_columns; data := place_cells <$> rs |}.
Proof.
  destruct rs as [|r rs]; [done|]. intros _.
  unfold drop, pd_DataFrame.
  change (filter _ ["latitude"; "longitude"]) with (@nil string).
  cbn [columns data]. f_equal. f_equal.
  rewrite <-list_fmap_compose. by apply list_fmap_ext.
Qed.

Lemma concat_same_length (a b : DataFrame) :
  length (data a) = length (data b) →
  concat a b = {| columns := columns a ++ columns b;
                  data := zip_with app (data a) (data b) |}.
Proof.
  intros Hlen. unfold concat, pad. rewrite <-Hlen, Nat.max_id, Nat.sub_diag.
  cbn. by rewrite !app_nil_r.
Qed.

(** The result of a call is a new dictionary with the coordinates of the
    call; the heap grows and the files and the page stay. *)
Lemma reverse_geocode_result lat lon max_retries self w l self' w' :
  reverse_geocode provider lat lon max_retries self w = (l, self', w') →
  ∃ r ext,
    heap w' = heap w ++ ext ∧ heap w' !! l = Some r
    ∧ latitude r = lat ∧ longitude r = lon
    ∧ files w' = files w ∧ ui w' = ui w.
Proof.
  intros H1.
  call_cases H1 as [t w1 Ht Hh Hl Hs Hf Hu
                 |n data evs w1 Hmiss Hn Hresp Hh Hl Hf Hu
                 |le evs w1 Hmiss Hh Hl Hf Hu];
    eexists _, _; (split; [exact Hh|]); rewrite Hh;
    (split; [by apply (list_lookup_middle (heap w))|]); done.
Qed.

(** Floats other than NaN are numbers. *)
Lemma numeric_rows df lat_column lon_column :
  numeric df lat_column lon_column → numbers df lat_column lon_column.
Proof.
  intros Hnum. eapply Forall_impl; [exact Hnum|].
  intros row (lat & lon & Hrow). by eexists.
Qed.

Lemma geocoded_mono df lat_column lon_column w w' ext row l :
  heap w' = heap w ++ ext →
  geocoded df lat_column lon_column w row l →
  geocoded df lat_column lon_column w' row l.
Proof.
  intros Hh (r & Hr & Hrow). exists r. split; [|done].
  rewrite Hh. by apply lookup_app_l_Some.
Qed.

(** Reading a cell changes nothing. *)
Lemma preserves_row_float_eq df row column self w x self' w' :
  row_float df row column self w = (x, self', w') → self' = self ∧ w' = w.
Proof.
  unfold row_float.
  destruct (row_get df row column) as [[?|?|]|]; by intros [= <- <- <-].
Qed.

Lemma row_float_lat df lat_column lon_column row lat lon self w :
  row_coordinates df lat_column lon_column row = Some (lat, lon) →
  row_float df row lat_column self w = (inr lat, self, w)
  ∧ row_float df row lon_column self w = (inr lon, self, w).
Proof.
  unfold row_coordinates, row_float. intros Hrow.
  destruct (row_get df row lat_column) as [[x|?|]|]; try done;
    destruct (row_get df row lon_column) as [[y|?|]|]; try done;
    by injection Hrow as <- <-.
Qed.

Lemma save_progress_eq df output_path results processed self w :
  results ≠ [] →
  save_progress df output_path results processed self w
  = (inr (), self,
     st_write (st_caption ("💾 Progress auto-saved at row "
                           +:+ pretty processed))
       (set_files
          (<[output_path :=
               concat (iloc processed df)
                 {| columns := place_columns;
                    data := place_cells <$> ((heap w !!!.) <$> results) |}]>
             (files w)) w)).
Proof.
  intros Hne. unfold save_progress.
  rewrite (bind_inr _ _ _ _ _ _ _ (deref_all_eq results self w)).
  rewrite drop_results by (by destruct results).
  reflexivity.
Qed.

(** The loop of [process_geocoding] on rows whose coordinate cells hold
    floats or are blank: it
    returns, with one result per row in the order of the rows; and when
    the count it ends on is a multiple of the interval or the total, the
    output file holds the rows processed so far with their results. *)
Lemma process_geocoding_rows_ok df lat_column lon_column output_path
    total_rows rows results processed self w :
  Forall (λ row, is_Some (row_coordinates df lat_column lon_column row)) rows →
  ∃ new self' w' ext,
    process_geocoding_rows provider df lat_column lon_column output_path
      total_rows rows results processed self w
    = (inr (results ++ new, (processed + Z.of_nat (length rows))%Z), self', w')
    ∧ heap w' = heap w ++ ext
    ∧ Forall2 (geocoded df lat_column lon_column w') rows new
    ∧ (rows ≠ [] →
       let p := (processed + Z.of_nat (length rows))%Z in
       (p `mod` batch_save_interval)%Z = 0%Z ∨ p = total_rows →
       files w' !! output_path
       = Some (concat (iloc p df)
                 {| columns := place_columns;
                    data := place_cells
                            <$> ((heap w' !!!.) <$> (results ++ new)) |})).
Proof.
  intros Hrows. revert results processed self w.
  induction Hrows as [|row rest [[lat lon] Hrow] Hrest IH];
    intros results processed self w.
  - exists [], self, w, []. cbn. rewrite !app_nil_r, Z.add_0_r.
    repeat split; [constructor|done].
  - cbn [process_geocoding_rows].
    destruct (row_float_lat _ _ _ _ _ _ self w Hrow) as [Hlat Hlon].
    rewrite (bind_inr _ _ _ _ _ _ _ Hlat), (bind_inr _ _ _ _ _ _ _ Hlon).
    destruct (reverse_geocode provider lat lon 3 self w)
      as [[l self1] w1] eqn:Hcall.
    rewrite (bind_inr _ _ _ _ l self1 w1)
      by (unfold call_reverse_geocode; by rewrite Hcall).
    destruct (reverse_geocode_result _ _ _ _ _ _ _ _ Hcall)
      as (r & ext1 & Hh1 & Hr & Hrlat & Hrlon & _ & _).
    set (p1 := (processed + 1)%Z).
    set (saved :=
      if decide ((p1 `mod` batch_save_interval)%Z = 0%Z ∨ p1 = total_rows)
      then save_progress df output_path (results ++ [l]) p1 else mret ()).
    assert (∃ w2, saved self1 w1 = (inr (), self1, w2) ∧ heap w2 = heap w1
              ∧ ((p1 `mod` batch_save_interval)%Z = 0%Z ∨ p1 = total_rows →
                 files w2 !! output_path
                 = Some (concat (iloc p1 df)
                           {| columns := place_columns;
                              data := place_cells
                                <$> ((heap w2 !!!.) <$> (results ++ [l])) |})))
      as (w2 & Hsaved & Hh2 & Hfile2).
    { subst saved. case_decide as Hsave.
      - rewrite save_progress_eq by (by destruct results).
        eexists. split; [done|]. split; [done|]. intros _. cbn.
        by rewrite lookup_insert_eq.
      - exists w1. by repeat split. }
    rewrite (bind_inr _ _ _ _ _ _ _ Hsaved).
    destruct (IH (results ++ [l]) p1 self1 w2)
      as (new & self' & w' & ext & Hloop & Hh & Hnew & Hfile).
    exists (l :: new), self', w', (ext1 ++ ext).
    rewrite Hloop, <-app_assoc. cbn [app length].
    replace (p1 + Z.of_nat (length rest))%Z
      with (processed + Z.of_nat (S (length rest)))%Z in * by lia.
    split; [done|]. split; [by rewrite Hh, Hh2, Hh1, <-app_assoc|].
    split.
    + constructor; [|done].
      apply (geocoded_mono _ _ _ w1 w' ext); [by rewrite Hh, Hh2|].
      exists r. split; [done|]. by rewrite Hrlat, Hrlon.
    + intros _ Hp. destruct rest as [|row' rest'].
      * inversion Hnew; subst new. revert Hloop. cbn.
        intros [= _ <- <-]. apply Hfile2. by subst p1.
      * rewrite <-app_assoc in Hfile. by apply Hfile.
Qed.

(** C8: in a batch run over a table whose coordinate columns hold
    floats, after [k] rows, when [k] is a multiple of the interval of 50
    or the number of rows of the table, the loop has returned one result
    per processed row and the output file holds exactly this: the first
    [k] rows of the input, in order, each followed by the place fields
    and the status of its own result (the result columns without
    latitude and longitude); the file is replaced, so it has [k] data
    rows. *)
Theorem snapshot_after_rows df lat_column lon_column output_path (k : nat) w :
  numeric df lat_column lon_column →
  0 < k ≤ length (data df) →
  (Z.of_nat k `mod` batch_save_interval)%Z = 0%Z ∨ k = length (data df) →
  batch_save_interval = 50%Z
  ∧ ∃ results rs self' w',
      process_geocoding_rows provider df lat_column lon_column output_path
        (len df) (take k (data df)) [] 0 __init__ w
      = (inr (results, Z.of_nat k), self', w')
      ∧ Forall2 (λ l r, heap w' !! l = Some r) results rs
      ∧ Forall2 (λ row r, row_coordinates df lat_column lon_column row
                          = Some (latitude r, longitude r))
          (take k (data df)) rs
      ∧ files w' !! output_path
        = Some {| columns := columns df ++ place_columns;
                  data := zip_with app (take k (data df))
                            (place_cells <$> rs) |}
      ∧ length (zip_with app (take k (data df)) (place_cells <$> rs)) = k.
Proof.
  intros Hnum [Hk0 Hk] Hsave. split; [done|].
  assert (length (take k (data df)) = k) as Hlen
    by (by apply length_take_le).
  destruct (process_geocoding_rows_ok df lat_column lon_column output_path
              (len df) (take k (data df)) [] 0 __init__ w)
    as (new & self' & w' & ext & Hloop & Hh & Hnew & Hfile).
  { by apply Forall_take, numeric_rows. }
  rewrite Hlen in Hloop, Hfile. cbn in Hloop, Hfile.
  assert (length new = k) as Hlen' by (by rewrite <-(Forall2_length _ _ _ Hnew)).
  assert (Forall2 (λ l r, heap w' !! l = Some r) new ((heap w' !!!.) <$> new))
    as Hderef.
  { apply Forall2_fmap_r, Forall_Forall2_diag.
    eapply Forall2_Forall_r; [exact Hnew|].
    apply Forall_true. intros row l (r & Hr & _). cbn.
    by rewrite (list_lookup_total_correct _ _ _ Hr). }
  exists new, ((heap w' !!!.) <$> new), self', w'.
  split; [done|]. split; [done|]. split; [|split].
  - apply Forall2_fmap_r. eapply Forall2_impl; [exact Hnew|].
    intros row l (r & Hr & Hrow). cbn.
    by rewrite (list_lookup_total_correct _ _ _ Hr).
  - rewrite Hfile.
    + f_equal. unfold iloc. rewrite Z.add_0_l, Nat2Z.id.
      rewrite concat_same_length; cbn [data columns]; [done|].
      by rewrite !length_fmap, Hlen, Hlen'.
    + destruct (take k (data df)); [cbn in Hlen; lia|done].
    + destruct Hsave as [Hmod|Hlast]; [by left|right].
      unfold len. by rewrite Hlast.
  - rewrite length_zip_with_l_eq; [done|].
    by rewrite !length_fmap, Hlen, Hlen'.
Qed.

(** The loop of [process_csv] on rows whose coordinate cells hold floats
    or are blank: it
    returns, with one result per row in the order of the rows, and
    writes no file. *)
Lemma process_csv_rows_ok df lat_column lon_column rows results n self w :
  Forall (λ row, is_Some (row_coordinates df lat_column lon_column row)) rows →
  ∃ new cnt self' w' ext,
    process_csv_rows provider df lat_column lon_column rows results n self w
    = (inr (results ++ new, cnt), self', w')
    ∧ heap w' = heap w ++ ext ∧ files w' = files w
    ∧ Forall2 (geocoded df lat_column lon_column w') rows new.
Proof.
  intros Hrows. revert results n self w.
  induction Hrows as [|row rest [[lat lon] Hrow] Hrest IH];
    intros results n self w.
  - exists [], n, self, w, []. cbn. rewrite !app_nil_r.
    repeat split. constructor.
  - cbn [process_csv_rows].
    destruct (row_float_lat _ _ _ _ _ _ self w Hrow) as [Hlat Hlon].
    rewrite (bind_inr _ _ _ _ _ _ _ Hlat), (bind_inr _ _ _ _ _ _ _ Hlon).
    destruct (reverse_geocode provider lat lon 3 self w)
      as [[l self1] w1] eqn:Hcall.
    rewrite (bind_inr _ _ _ _ l self1 w1)
      by (unfold call_reverse_geocode; by rewrite Hcall).
    destruct (reverse_geocode_result _ _ _ _ _ _ _ _ Hcall)
      as (r & ext1 & Hh1 & Hr & Hrlat & Hrlon & Hf1 & _).
    rewrite (bind_inr _ _ _ _ (heap w1 !!! l) self1 w1) by done.
    match goal with
    | |- context [process_csv_rows _ _ _ _ _ _ ?n1 _ _] =>
        destruct (IH (results ++ [l]) n1 self1 w1)
          as (new & cnt & self' & w' & ext & Hloop & Hh & Hf & Hnew)
    end.
    exists (l :: new), cnt, self', w', (ext1 ++ ext).
    rewrite Hloop, <-app_assoc.
    split; [done|]. split; [by rewrite Hh, Hh1, <-app_assoc|].
    split; [congruence|].
    constructor; [|done].
    apply (geocoded_mono _ _ _ w1 w' ext); [done|].
    exists r. split; [done|]. by rewrite Hrlat, Hrlon.
Qed.

(** For a table with at least one row and float coordinates,
    [process_csv] returns and writes one output row per input row, in
    the order of the input: the input row followed by the place fields
    and the status of its own result.  A call that failed shows in the
    status cell of its row. *)
Lemma process_csv_rows_in_order input_file output_file lat_column lon_column
    self w df :
  files w !! input_file = Some df →
  lat_column ∈ columns df → lon_column ∈ columns df →
  numeric df lat_column lon_column →
  data df ≠ [] →
  ∃ results rs cnt self' w',
    process_csv provider input_file output_file lat_column lon_column self w
    = (inr (cnt, len df), self', w')
    ∧ Forall2 (λ l r, heap w' !! l = Some r) results rs
    ∧ Forall2 (λ row r, row_coordinates df lat_column lon_column row
                        = Some (latitude r, longitude r)) (data df) rs
    ∧ files w' !! output_file
      = Some {| columns := columns df ++ place_columns;
                data := zip_with app (data df) (place_cells <$> rs) |}
    ∧ length (zip_with app (data df) (place_cells <$> rs))
      = length (data df).
Proof.
  intros Hfile Hlat Hlon Hnum Hne.
  destruct (process_csv_rows_ok df lat_column lon_column (data df) [] 0%Z
              self w (numeric_rows _ _ _ Hnum))
    as (new & cnt & self' & w' & ext & Hloop & Hh & Hf & Hnew).
  cbn in Hloop.
  assert (length (data df) = length new) as Hlen
    by (by eapply Forall2_length).
  set (rs := (heap w' !!!.) <$> new).
  exists new, rs, cnt, self'. eexists.
  split; [|split; [|split; [|split]]].
  - unfold process_csv.
    rewrite (bind_inr _ _ _ _ df self w)
      by (unfold read_csv; by rewrite Hfile).
    rewrite decide_False by (intros [?|?]; done).
    rewrite (bind_inr _ _ _ _ _ _ _ Hloop).
    rewrite (bind_inr _ _ _ _ _ _ _ (deref_all_eq new self' w')).
    fold rs. rewrite drop_results
      by (destruct new, (data df); cbn in *; done).
    reflexivity.
  - apply Forall2_fmap_r, Forall_Forall2_diag.
    eapply Forall2_Forall_r; [exact Hnew|].
    apply Forall_true. intros row l (r & Hr & _). cbn.
    by rewrite (list_lookup_total_correct _ _ _ Hr).
  - apply Forall2_fmap_r. eapply Forall2_impl; [exact Hnew|].
    intros row l (r & Hr & Hrow). cbn.
    by rewrite (list_lookup_total_correct _ _ _ Hr).
  - cbn. rewrite lookup_insert_eq. f_equal.
    rewrite concat_same_length; [done|].
    cbn. subst rs. by rewrite !length_fmap.
  - rewrite length_zip_with_l_eq; [done|].
    subst rs. by rewrite !length_fmap.
Qed.

(** C6 at a table without rows: the loop does not run, the frame of the
    results has no column, and dropping its latitude and longitude
    columns raises a [KeyError]: [process_csv] raises it and writes no
    output, [process_geocoding] reports it and writes no output. *)
Theorem batch_without_rows_raises df lat_column lon_column :
  data df = [] →
  lat_column ∈ columns df → lon_column ∈ columns df →
  (∀ input_file output_file self w,
     files w !! input_file = Some df →
     process_csv provider input_file output_file lat_column lon_column self w
     = (inl (KeyError "['latitude', 'longitude'] not found in axis"),
        self, w))
  ∧ (∀ output_path w,
       process_geocoding provider df lat_column lon_column output_path w
       = st_write (st_exception "❌ Error during geocoding: "
                     (KeyError "['latitude', 'longitude'] not found in axis"))
           w).
Proof.
  intros Hdata Hlat Hlon. split.
  - intros input_file output_file self w Hfile. unfold process_csv.
    rewrite (bind_inr _ _ _ _ df self w)
      by (unfold read_csv; by rewrite Hfile).
    rewrite decide_False by (intros [?|?]; done).
    by rewrite Hdata.
  - intros output_path w.
    unfold process_geocoding, process_geocoding_try. by rewrite Hdata.
Qed.


(** * Further properties of the code *)

(** ** The schedule of retries *)

(** A run of failed attempts: the loop goes on with the rest, the last
    failure remembered, one request sent and the events of one failed
    attempt logged for each. *)
Lemma retry_loop_fail_prefix attempts rest max_retries lat lon last_error
    self w (e : nat → string) :
  (∀ i, i < length attempts →
        provider (sent w + i) lat lon = RequestException (e (sent w + i))) →
  ∃ w1,
    retry_loop provider (attempts ++ rest) max_retries lat lon last_error
      self w
    = retry_loop provider rest max_retries lat lon
        (match attempts with
         | [] => last_error
         | _ :: _ => Some (e (sent w + length attempts - 1))
         end) self w1
    ∧ heap w1 = heap w ∧ files w1 = files w ∧ ui w1 = ui w
    ∧ sent w1 = sent w + length attempts
    ∧ log w1 = log w ++ flat_map (failed_attempt max_retries lat lon) attempts.
Proof.
  revert last_error w.
  induction attempts as [|attempt attempts IH]; intros last_error w Hfail.
  - exists w. cbn. by rewrite Nat.add_0_r, app_nil_r.
  - cbn [app]. rewrite (retry_loop_fails _ _ _ _ _ _ _ _ (e (sent w))).
    2:{ specialize (Hfail 0). rewrite Nat.add_0_r in Hfail.
        apply Hfail. cbn. lia. }
    match goal with
    | |- context [retry_loop _ _ _ _ _ _ _ ?w0] => set (w2 := w0)
    end.
    destruct (IH (Some (e (sent w))) w2)
      as (w1 & Hloop & Hh & Hf & Hu & Hs & Hl).
    { intros i Hi. cbn [sent w2]. subst w2. cbn [sent].
      replace (S (sent w) + i) with (sent w + S i) by lia.
      apply Hfail. cbn. lia. }
    exists w1. rewrite Hloop. subst w2. cbn in Hh, Hf, Hu, Hs, Hl.
    split; [|repeat split; try done].
    + f_equal. destruct attempts as [|a attempts]; cbn.
      * do 2 f_equal. lia.
      * do 2 f_equal. lia.
    + cbn. lia.
    + rewrite Hl. cbn. unfold failed_attempt. by rewrite <-!app_assoc.
Qed.

Lemma flat_map_ext_Forall {A B} (f g : A → list B) l :
  Forall (λ x, f x = g x) l → flat_map f l = flat_map g l.
Proof. induction 1 as [|x l Hx _ IH]; [done|]. cbn. by rewrite Hx, IH. Qed.

Lemma range_length n : length (range n) = Z.to_nat n.
Proof. unfold range. by rewrite length_fmap, length_seq. Qed.

Lemma range_split (k : nat) n :
  (Z.of_nat k < n)%Z →
  range n = range (Z.of_nat k) ++ Z.of_nat k
            :: (Z.of_nat <$> seq (S k) (Z.to_nat n - S k)).
Proof.
  intros Hk. unfold range. rewrite Nat2Z.id.
  replace (Z.to_nat n) with (k + S (Z.to_nat n - S k)) at 1 by lia.
  by rewrite seq_app, fmap_app.
Qed.

Lemma all_fail_call lat lon max_retries self w (e : nat → string)
    l self' w' :
  cache self !! cache_key lat lon = None →
  (∀ i, i < Z.to_nat max_retries →
        provider (sent w + i) lat lon = RequestException (e (sent w + i))) →
  reverse_geocode provider lat lon max_retries self w = (l, self', w') →
  log w' = log w ++ flat_map (failed_attempt max_retries lat lon)
                      (range max_retries)
  ∧ sent w' = sent w + Z.to_nat max_retries
  ∧ cache self' = cache self
  ∧ cache_misses self' = (cache_misses self + 1)%Z
  ∧ heap w' !! l
    = Some (error_result lat lon
              (if decide (0 < max_retries)%Z
               then Some (e (sent w + Z.to_nat max_retries - 1))
               else None)).
Proof.
  intros Hmiss Hfail. unfold reverse_geocode, cache_get. rewrite Hmiss.
  match goal with
  | |- context [retry_loop _ _ _ _ _ _ ?s _] => set (self1 := s)
  end.
  destruct (retry_loop_fail_prefix (range max_retries) [] max_retries lat lon
              None self1 w e)
    as (w1 & Hloop & Hh & Hf & Hu & Hs & Hl).
  { by rewrite range_length. }
  rewrite app_nil_r in Hloop. rewrite Hloop. cbn.
  intros [= <- <- <-]. cbn. rewrite range_length in Hs.
  repeat (split; [done|]).
  rewrite list_lookup_middle by done. do 2 f_equal.
  rewrite range_length. case_decide as Hpos.
  - by destruct (range_pos _ Hpos) as [rest ->].
  - unfold range. by replace (Z.to_nat max_retries) with 0 by lia.
Qed.

(** X1: every attempt fails.  For any [max_retries] (none or a negative
    number included), a call on a coordinate that is not cached whose
    requests all fail sends exactly [max_retries] requests (none if that
    is not positive), each after a pause of one second, waits
    [2 ** (attempt + 1)] seconds after every failure but the last,
    caches nothing, and returns the result with the last failure in its
    status (["error: None"] if there was no attempt). *)
Theorem every_attempt_fails lat lon max_retries self w (e : nat → string)
    l self' w' :
  cache self !! cache_key lat lon = None →
  (∀ i, i < Z.to_nat max_retries →
        provider (sent w + i) lat lon = RequestException (e (sent w + i))) →
  reverse_geocode provider lat lon max_retries self w = (l, self', w') →
  log w' = log w ++ flat_map (failed_attempt max_retries lat lon)
                      (range max_retries)
  ∧ sent w' = sent w + Z.to_nat max_retries
  ∧ cache self' = cache self
  ∧ cache_misses self' = (cache_misses self + 1)%Z
  ∧ heap w' !! l
    = Some (error_result lat lon
              (if decide (0 < max_retries)%Z
               then Some (e (sent w + Z.to_nat max_retries - 1))
               else None)).
Proof. apply all_fail_call. Qed.

Lemma answered_call lat lon max_retries (k : nat) self w
    (e : nat → string) data l self' w' :
  cache self !! cache_key lat lon = None →
  (Z.of_nat k < max_retries)%Z →
  (∀ i, i < k →
        provider (sent w + i) lat lon = RequestException (e (sent w + i))) →
  provider (sent w + k) lat lon = Response data →
  reverse_geocode provider lat lon max_retries self w = (l, self', w') →
  log w' = log w ++ flat_map (λ attempt, [Sleep 1; Get lat lon;
                                          Sleep (2 ^ (attempt + 1))])
                      (range (Z.of_nat k))
           ++ [Sleep 1; Get lat lon]
  ∧ sent w' = sent w + k + 1
  ∧ heap w' !! l = Some (success_result lat lon data)
  ∧ cache_misses self' = (cache_misses self + 1)%Z
  ∧ ∃ t, cache self' = <[cache_key lat lon := t]> (cache self)
         ∧ t ≠ l
         ∧ heap w' !! t = Some (success_result lat lon data).
Proof.
  intros Hmiss Hk Hfail Hresp. unfold reverse_geocode, cache_get.
  rewrite Hmiss.
  rewrite (range_split k) by done.
  match goal with
  | |- context [retry_loop _ _ _ _ _ _ ?s _] => set (self1 := s)
  end.
  match goal with
  | |- context [retry_loop _ (_ ++ ?r) _ _ _ _ _ _] => set (rest := r)
  end.
  destruct (retry_loop_fail_prefix (range (Z.of_nat k)) rest max_retries
              lat lon None self1 w e)
    as (w1 & Hloop & Hh & Hf & Hu & Hs & Hl).
  { by rewrite range_length, Nat2Z.id. }
  rewrite range_length, Nat2Z.id in Hs.
  rewrite Hloop. subst rest. cbn [retry_loop session_get time_sleep sent].
  rewrite Hs, Hresp. cbn. intros [= <- <- <-]. cbn.
  rewrite Hh, Hl, <-!app_assoc. cbn.
  split; [|split; [lia|split; [|split; [done|]]]].
  - do 2 f_equal.
    unfold range. rewrite Nat2Z.id.
    apply flat_map_ext_Forall, Forall_forall.
    intros a (i & -> & Hi%elem_of_seq)%list_elem_of_fmap.
    unfold failed_attempt. by rewrite (proj2 (Z.ltb_lt _ _)) by lia.
  - by apply list_lookup_middle.
  - eexists. split; [done|]. split.
    + rewrite length_app. cbn. lia.
    + rewrite lookup_total_last, lookup_app_r by (rewrite length_app; lia).
      rewrite length_app. cbn.
      by replace (length (heap w) + 1 - length (heap w)) with 1 by lia.
Qed.

(** X2: a failure that passes.  When the first [k] requests of a call on
    a coordinate that is not cached fail and the next one is answered,
    with [k < max_retries], the call sends exactly [k + 1] requests,
    waits after each of the [k] failures, returns the result built from
    the answer and caches a copy of it under the rounded key. *)
Theorem failures_then_answer lat lon max_retries (k : nat) self w
    (e : nat → string) data l self' w' :
  cache self !! cache_key lat lon = None →
  (Z.of_nat k < max_retries)%Z →
  (∀ i, i < k →
        provider (sent w + i) lat lon = RequestException (e (sent w + i))) →
  provider (sent w + k) lat lon = Response data →
  reverse_geocode provider lat lon max_retries self w = (l, self', w') →
  log w' = log w ++ flat_map (λ attempt, [Sleep 1; Get lat lon;
                                          Sleep (2 ^ (attempt + 1))])
                      (range (Z.of_nat k))
           ++ [Sleep 1; Get lat lon]
  ∧ sent w' = sent w + k + 1
  ∧ heap w' !! l = Some (success_result lat lon data)
  ∧ cache_misses self' = (cache_misses self + 1)%Z
  ∧ ∃ t, cache self' = <[cache_key lat lon := t]> (cache self)
         ∧ t ≠ l
         ∧ heap w' !! t = Some (success_result lat lon data).
Proof. apply answered_call. Qed.

(** ** Fields of a successful result *)

Lemma upper_ascii_idemp c : upper_ascii (upper_ascii c) = upper_ascii c.
Proof. by destruct c as [[] [] [] [] [] [] [] []]. Qed.

(** An upper-cased string is in upper case. *)
Lemma upper_idemp s : upper (upper s) = upper s.
Proof.
  induction s as [|c s IH]; [done|].
  cbn -[upper_ascii]. fold (upper s) (upper (upper s)).
  by rewrite upper_ascii_idemp, IH.
Qed.

(** C4 on the code: take a call that is a miss and whose request number
    [k + 1] is the first that the provider answers, with the object
    [data].  The result returned has the status ["success"] and is built
    from [data], the answer this call received: the city is extracted
    from the address object (an empty one if the answer has none) and is
    [None] when none of the five city fields is present; [state],
    [country] and [postcode] are the fields of the address object,
    [None] when absent; [display_name] is the top-level field, [None]
    when absent; [country_code] is the upper-cased field when present.
    When the address object has no [country_code], the result holds the
    empty string there and not [None], unlike every other field and
    unlike the result of a failed call; either way it is a string in
    upper case. *)
Theorem success_result_fields lat lon max_retries (k : nat) self w
    (e : nat → string) data l self' w' :
  cache self !! cache_key lat lon = None →
  (Z.of_nat k < max_retries)%Z →
  (∀ i, i < k →
        provider (sent w + i) lat lon = RequestException (e (sent w + i))) →
  provider (sent w + k) lat lon = Response data →
  reverse_geocode provider lat lon max_retries self w = (l, self', w') →
  ∃ r,
    heap w' !! l = Some r
    ∧ status r = "success"
    ∧ let address := default ∅ (data_address data) in
      latitude r = lat ∧ longitude r = lon
      ∧ city r = _extract_city address
      ∧ ((∀ field, field ∈ city_fields → address !! field = None) →
         city r = None)
      ∧ state r = address !! "state"
      ∧ country r = address !! "country"
      ∧ postcode r = address !! "postcode"
      ∧ display_name r = data_display_name data
      ∧ (∀ v, address !! "country_code" = Some v →
              country_code r = Some (upper v))
      ∧ (address !! "country_code" = None →
         country_code r = Some "" ∧ country_code r ≠ None)
      ∧ ∃ code, country_code r = Some code ∧ upper code = code.
Proof.
  intros Hmiss Hk Hfail Hresp H1.
  destruct (answered_call lat lon max_retries k self w e data l self' w'
              Hmiss Hk Hfail Hresp H1) as (_ & _ & Hr & _).
  exists (success_result lat lon data). split; [done|].
  cbn -[_extract_city city_fields].
  do 4 (split; [done|]).
  split; [apply first_present_none|].
  do 4 (split; [done|]).
  split; [by intros v ->|].
  split; [by intros ->|].
  eexists. split; [done|]. apply upper_idemp.
Qed.

(** ** The seconds slept *)

Lemma total_sleep_app evs1 evs2 :
  total_sleep (evs1 ++ evs2) = (total_sleep evs1 + total_sleep evs2)%Z.
Proof.
  induction evs1 as [|[secs|lat lon] evs1 IH]; cbn; [done|lia|done].
Qed.

(** The seconds slept in [k] failed attempts that all have a successor. *)
Lemma sleep_of_failed_attempts max_retries lat lon (k : nat) :
  (Z.of_nat k ≤ max_retries - 1)%Z →
  total_sleep (flat_map (failed_attempt max_retries lat lon)
                 (Z.of_nat <$> seq 0 k))
  = (Z.of_nat k + 2 ^ (Z.of_nat k + 1) - 2)%Z.
Proof.
  induction k as [|k IH]; intros Hk; [done|].
  rewrite seq_S, fmap_app, flat_map_app, total_sleep_app, IH by lia.
  cbn. unfold failed_attempt.
  rewrite (proj2 (Z.ltb_lt _ _)) by lia. cbn.
  replace (Z.of_nat (S k) + 1)%Z with (Z.succ (Z.of_nat k + 1)) by lia.
  rewrite Z.pow_succ_r by lia. lia.
Qed.

(** X3: the seconds a failing call sleeps.  A call with [max_retries ≥ 1]
    on a coordinate that is not cached whose requests all fail sleeps
    [max_retries + 2 ** max_retries - 2] seconds in all (9 seconds with
    the default of 3). *)
Theorem failing_call_sleeps lat lon max_retries self w (e : nat → string)
    l self' w' :
  (1 ≤ max_retries)%Z →
  cache self !! cache_key lat lon = None →
  (∀ i, i < Z.to_nat max_retries →
        provider (sent w + i) lat lon = RequestException (e (sent w + i))) →
  reverse_geocode provider lat lon max_retries self w = (l, self', w') →
  ∃ evs, log w' = log w ++ evs
         ∧ total_sleep evs = (max_retries + 2 ^ max_retries - 2)%Z.
Proof.
  intros Hn Hmiss Hfail H1.
  destruct (all_fail_call _ _ _ _ _ _ _ _ _ Hmiss Hfail H1) as (Hl & _).
  eexists. split; [exact Hl|].
  unfold range.
  destruct (Z.to_nat max_retries) as [|k] eqn:Hk; [lia|].
  rewrite seq_S, fmap_app, flat_map_app, total_sleep_app.
  rewrite sleep_of_failed_attempts by lia.
  cbn. unfold failed_attempt.
  rewrite (proj2 (Z.ltb_ge _ _)) by lia. cbn.
  replace max_retries with (Z.of_nat k + 1)%Z by lia. lia.
Qed.

(** ** Requests are bounded and paced *)

Lemma paced_mono slept evs : paced false evs = true → paced slept evs = true.
Proof. destruct evs as [|[secs|lat lon] evs]; cbn; [done..|]. discriminate. Qed.

Lemma paced_app slept evs1 evs2 :
  paced slept evs1 = true → paced false evs2 = true →
  paced slept (evs1 ++ evs2) = true.
Proof.
  revert slept. induction evs1 as [|[secs|lat lon] evs1 IH]; intros slept; cbn.
  - intros _. apply paced_mono.
  - apply IH.
  - intros [-> H1]%andb_true_iff H2. cbn. by apply IH.
Qed.

Lemma retry_loop_paced attempts max_retries lat lon last_error self w :
  let '(_, _, w') :=
    retry_loop provider attempts max_retries lat lon last_error self w in
  ∃ evs, log w' = log w ++ evs ∧ paced false evs = true
         ∧ (sent w ≤ sent w' ≤ sent w + length attempts)%nat.
Proof.
  revert last_error w.
  induction attempts as [|attempt rest IH]; intros last_error w.
  - exists []. cbn. rewrite app_nil_r. repeat split; lia.
  - destruct (provider (sent w) lat lon) as [data|e] eqn:Hresp.
    + cbn. rewrite Hresp. cbn. exists [Sleep 1; Get lat lon].
      rewrite <-app_assoc. repeat split; lia.
    + rewrite (retry_loop_fails _ _ _ _ _ _ _ _ e Hresp).
      match goal with
      | |- context [retry_loop _ _ _ _ _ ?le _ ?w1] =>
          specialize (IH le w1);
          destruct (retry_loop provider rest max_retries lat lon le self w1)
            as [[x self'] w']
      end.
      destruct IH as (evs & Hl & Hp & Hs). cbn in Hl, Hs.
      eexists. rewrite Hl, <-!app_assoc. split; [done|]. split; [|cbn; lia].
      cbn. destruct (attempt <? max_retries - 1)%Z; cbn; [|done].
      by apply paced_mono.
Qed.

Lemma call_paced lat lon max_retries self w l self' w' :
  reverse_geocode provider lat lon max_retries self w = (l, self', w') →
  ∃ evs, log w' = log w ++ evs ∧ paced false evs = true
         ∧ (sent w ≤ sent w' ≤ sent w + Z.to_nat max_retries)%nat.
Proof.
  unfold reverse_geocode.
  destruct (cache_get lat lon (cache self)) as [t|].
  - intros [= <- <- <-]. exists []. cbn. rewrite app_nil_r.
    repeat split; lia.
  - match goal with
    | |- context [retry_loop _ ?a ?m _ _ ?le ?s ?w0] =>
        pose proof (retry_loop_paced a m lat lon le s w0) as Hloop;
        destruct (retry_loop provider a m lat lon le s w0) as [[x self1] w1]
    end.
    rewrite range_length in Hloop.
    destruct x as [r|le]; intros [= <- <- <-]; exact Hloop.
Qed.

Lemma preserves_paced_call lat lon :
  preserves (λ _ w, paced false (log w) = true)
    (call_reverse_geocode provider lat lon).
Proof.
  intros self w x self' w' HP. unfold call_reverse_geocode.
  destruct (reverse_geocode provider lat lon 3 self w) as [[l self1] w1] eqn:E.
  intros [= <- <- <-].
  destruct (call_paced lat lon 3 self w l self1 w1 E)
    as (evs & -> & Hp & _).
  by apply paced_app.
Qed.

(** X4: a call sends at most [max_retries] requests (none, if that is not
    positive), and every request it sends comes right after a sleep of
    at least one second. *)
Theorem call_is_bounded_and_paced lat lon max_retries self w l self' w' :
  reverse_geocode provider lat lon max_retries self w = (l, self', w') →
  ∃ evs, log w' = log w ++ evs ∧ paced false evs = true
         ∧ (sent w ≤ sent w' ≤ sent w + Z.to_nat max_retries)%nat.
Proof. apply call_paced. Qed.

(** X5: whatever a caller does with a geocoder (calls, batches,
    clearing, assignments to results), every request in the log comes
    right after a sleep of at least one second, if that held of the log
    before. *)
Theorem requests_are_paced ops c :
  paced false (log (env c)) = true →
  paced false (log (env (run provider ops c))) = true.
Proof.
  revert c. induction ops as [|o ops IH]; intros c Hp; [done|].
  cbn. apply IH.
  destruct o as [lat lon m| | |fin fout clat clon|i f]; cbn; try done.
  - destruct (reverse_geocode provider lat lon m (geocoder c) (env c))
      as [[l self'] w'] eqn:E. cbn.
    destruct (call_paced _ _ _ _ _ _ _ _ E) as (evs & -> & Hevs & _).
    by apply paced_app.
  - destruct (process_csv provider fin fout clat clon (geocoder c) (env c))
      as [[x self'] w'] eqn:E. cbn.
    eapply (preserves_process_csv (λ _ w, paced false (log w) = true));
      [apply preserves_paced_call| |exact Hp|exact E].
    by intros self w f0 HP.
  - by destruct (held c !! i).
Qed.

(** ** What a result looks like *)

(** X6: from a state that satisfies the invariant of the cache, the
    result of a call carries the coordinates of the call, and either has
    the status ["success"] or is the error result: status ["error: "]
    followed by the last failure (or [None]), every location field
    [None]. *)
Theorem result_is_success_or_error lat lon max_retries self w l self' w' :
  cache_ok self w →
  reverse_geocode provider lat lon max_retries self w = (l, self', w') →
  ∃ r, heap w' !! l = Some r
       ∧ latitude r = lat ∧ longitude r = lon
       ∧ (status r = "success"
          ∨ ∃ last_error, r = error_result lat lon last_error).
Proof.
  intros Hok H1.
  call_cases H1 as [t w1 Ht Hh Hl Hs Hf Hu
                   |n data evs w1 Hmiss Hn Hresp Hh Hl Hf Hu
                   |le evs w1 Hmiss Hh Hl Hf Hu];
    eexists; rewrite Hh;
    (split; [by apply (list_lookup_middle (heap w))|]);
    (split; [done|]); (split; [done|]).
  - left. destruct (cache_get_Some _ _ _ _ Ht) as [k Hk].
    destruct (Hok _ _ Hk) as (r & Hr & Hstatus).
    by rewrite (list_lookup_total_correct _ _ _ Hr).
  - by left.
  - right. by eexists.
Qed.

(** X7: a result dictionary is changed by nobody but a caller that
    assigns to it: calls, batches, statistics and clearing leave every
    dictionary that is on the heap as it is. *)
Theorem results_are_kept ops c l r :
  (∀ i f, Mutate_result i f ∉ ops) →
  heap (env c) !! l = Some r →
  heap (env (run provider ops c)) !! l = Some r.
Proof.
  revert c. induction ops as [|o ops IH]; intros c Hops Hr; [done|].
  cbn. apply IH; [intros i f Hin; apply (Hops i f); by right|].
  destruct o as [lat lon m| | |fin fout clat clon|i f]; cbn; try done.
  - destruct (reverse_geocode provider lat lon m (geocoder c) (env c))
      as [[l' self'] w'] eqn:E. cbn.
    destruct (reverse_geocode_result _ _ _ _ _ _ _ _ E)
      as (? & ext & -> & _). by apply lookup_app_l_Some.
  - destruct (process_csv provider fin fout clat clon (geocoder c) (env c))
      as [[x self'] w'] eqn:E. cbn.
    eapply (preserves_process_csv (λ _ w, heap w !! l = Some r));
      [| |exact Hr|exact E].
    + intros lat lon self w y self1 w1 HP. unfold call_reverse_geocode.
      destruct (reverse_geocode provider lat lon 3 self w)
        as [[l' self2] w2] eqn:E2.
      intros [= <- <- <-].
      destruct (reverse_geocode_result _ _ _ _ _ _ _ _ E2)
        as (? & ext & -> & _). by apply lookup_app_l_Some.
    + by intros self w f0 HP.
  - exfalso. apply (Hops i f). by left.
Qed.


(** ** The statistics *)

(** Each call counts once, as a hit or as a miss, and the cache grows
    by at most one entry, on a miss. *)
Lemma call_counts lat lon max_retries self w l self' w' :
  reverse_geocode provider lat lon max_retries self w = (l, self', w') →
  (cache_hits self' + cache_misses self'
   = cache_hits self + cache_misses self + 1)%Z
  ∧ (cache_hits self ≤ cache_hits self')%Z
  ∧ (Z.of_nat (size (cache self')) - Z.of_nat (size (cache self))
     ≤ cache_misses self' - cache_misses self)%Z.
Proof.
  intros H1.
  call_cases H1 as [t w1 Ht Hh Hl Hs Hf Hu
                   |n data evs w1 Hmiss Hn Hresp Hh Hl Hf Hu
                   |le evs w1 Hmiss Hh Hl Hf Hu]; cbn.
  - lia.
  - rewrite map_size_insert_None by (by apply stored_key_fresh). lia.
  - lia.
Qed.

Lemma preserves_stats_call lat lon :
  preserves stats_ok (call_reverse_geocode provider lat lon).
Proof.
  intros self w x self' w' [Hhits Hsize]. unfold call_reverse_geocode.
  destruct (reverse_geocode provider lat lon 3 self w) as [[l self1] w1] eqn:E.
  intros [= <- <- <-].
  destruct (call_counts _ _ _ _ _ _ _ _ E) as (_ & ? & Hgrow).
  split; [lia|]. revert Hgrow Hsize.
  generalize (Z.of_nat (size (cache self1))) (Z.of_nat (size (cache self))).
  lia.
Qed.

(** X8: what [get_cache_stats] reports, in every state a caller reaches
    from a new geocoder (calls, batches, clearing, assignments to
    results): no counter is negative, the size of the cache is at most
    the number of misses, and the total is the sum of hits and misses. *)
Theorem stats_are_consistent ops w :
  let '(hits, misses, size, total_requests) :=
    get_cache_stats (geocoder (run provider ops (start w))) in
  (0 ≤ hits)%Z ∧ (0 ≤ size ≤ misses)%Z ∧ total_requests = (hits + misses)%Z.
Proof.
  assert (∀ c, stats_ok (geocoder c) (env c) →
               stats_ok (geocoder (run provider ops c))
                 (env (run provider ops c))) as Hrun.
  { induction ops as [|o ops IH]; intros c Hc; [done|].
    cbn. apply IH.
    destruct o as [lat lon m| | |fin fout clat clon|i f]; cbn; try done.
    - destruct (reverse_geocode provider lat lon m (geocoder c) (env c))
        as [[l self'] w'] eqn:E. cbn.
      destruct Hc as [Hhits Hsize].
      destruct (call_counts _ _ _ _ _ _ _ _ E) as (_ & ? & Hgrow).
      split; [lia|]. revert Hgrow Hsize.
      generalize (Z.of_nat (size (cache self')))
                 (Z.of_nat (size (cache (geocoder c)))). lia.
    - destruct (process_csv provider fin fout clat clon (geocoder c) (env c))
        as [[x self'] w'] eqn:E. cbn.
      eapply (preserves_process_csv stats_ok);
        [apply preserves_stats_call| |exact Hc|exact E].
      by intros self w0 f0 HP.
    - by destruct (held c !! i). }
  destruct (Hrun (start w)) as [Hhits Hsize].
  { split; cbn; [lia|]. rewrite map_size_empty. lia. }
  unfold get_cache_stats. repeat split; lia.
Qed.

(** X9: the total that [get_cache_stats] reports is the number of calls
    of [reverse_geocode] the caller has made since it created the
    geocoder or last cleared the cache, when it has run no batch (a
    batch makes calls of its own). *)
Theorem stats_count_calls ops w :
  (∀ o, o ∈ ops → is_process_csv o = false) →
  (get_cache_stats (geocoder (run provider ops (start w)))).2
  = calls_since_clear ops.
Proof.
  intros Hops. unfold calls_since_clear, get_cache_stats. cbn [snd].
  assert (∀ c n, (cache_hits (geocoder c) + cache_misses (geocoder c))%Z = n →
            (cache_hits (geocoder (run provider ops c))
             + cache_misses (geocoder (run provider ops c)))%Z
            = foldl count_call n ops) as Hrun.
  { induction ops as [|o ops IH]; intros c n Hn; [done|].
    cbn. apply IH; [intros o' Ho'; apply Hops; by right|].
    destruct o as [lat lon m| | |fin fout clat clon|i f]; cbn; try done.
    - destruct (reverse_geocode provider lat lon m (geocoder c) (env c))
        as [[l self'] w'] eqn:E. cbn.
      destruct (call_counts _ _ _ _ _ _ _ _ E) as (? & _). lia.
    - specialize (Hops (Call_process_csv fin fout clat clon)).
      cbn in Hops. discriminate Hops. by left.
    - by destruct (held c !! i). }
  by apply Hrun.
Qed.

(** ** Clearing the cache *)

Lemma miss_call lat lon max_retries self w l self' w' :
  cache_get lat lon (cache self) = None →
  reverse_geocode provider lat lon max_retries self w = (l, self', w') →
  cache_hits self' = cache_hits self
  ∧ cache_misses self' = (cache_misses self + 1)%Z
  ∧ ((0 < max_retries)%Z →
     ∃ evs, log w' = log w ++ Sleep 1 :: Get lat lon :: evs).
Proof.
  intros Hmiss. unfold reverse_geocode. rewrite Hmiss.
  match goal with
  | |- context [retry_loop _ _ _ _ _ _ ?s _] => set (self1 := s)
  end.
  destruct (retry_loop provider (range max_retries) max_retries lat lon None
              self1 w) as [[x self3] w3] eqn:Hloop.
  pose proof (retry_loop_end (range max_retries) max_retries lat lon None
                self1 w) as E2.
  rewrite Hloop in E2.
  assert ((0 < max_retries)%Z →
          ∃ evs, log w3 = log w ++ Sleep 1 :: Get lat lon :: evs) as Hbegin.
  { intros Hm. destruct (range_pos _ Hm) as [rest Hrange].
    pose proof (retry_loop_begins 0%Z rest max_retries lat lon None self1 w)
      as B.
    rewrite <-Hrange, Hloop in B. exact B. }
  destruct E2 as [n data evs2 w3 _ _ _ _ _ _|le2 evs2 w3 _ _ _ _ _];
    intros [= <- <- <-]; cbn; repeat split; done.
Qed.

(** X10: after [clear_cache] the statistics are all zero and the next
    lookup is a miss, whatever was cached before: the miss counter is 1,
    the hit counter 0, and with attempts to make the call pauses and
    sends a request. *)
Theorem lookup_after_clear_is_miss self w lat lon max_retries l self' w' :
  reverse_geocode provider lat lon max_retries (clear_cache self) w
  = (l, self', w') →
  get_cache_stats (clear_cache self) = (0, 0, 0, 0)%Z
  ∧ cache_hits self' = 0%Z ∧ cache_misses self' = 1%Z
  ∧ ((0 < max_retries)%Z →
     ∃ evs, log w' = log w ++ Sleep 1 :: Get lat lon :: evs).
Proof.
  intros H1. split; [done|].
  apply (miss_call lat lon max_retries (clear_cache self) w l self' w');
    [|done].
  by destruct lat, lon.
Qed.

(** ** Coordinates that are NaN *)

(** X20: a coordinate that is NaN, as pandas gives for a blank cell, is
    never served from the cache.  Whatever the cache holds, a call with
    a NaN for a coordinate is a miss: the miss counter goes up by one,
    the hit counter stays, and with attempts to make the call pauses
    and sends a request.  The call keeps every entry of the cache; when
    it returns a success the cache has one entry more, which changes no
    lookup of a later call, and when it does not the cache is as it
    was. *)
Theorem nan_is_always_a_miss lat lon max_retries self w l self' w' r :
  lat = NaN ∨ lon = NaN →
  reverse_geocode provider lat lon max_retries self w = (l, self', w') →
  heap w' !! l = Some r →
  cache_hits self' = cache_hits self
  ∧ cache_misses self' = (cache_misses self + 1)%Z
  ∧ ((0 < max_retries)%Z →
     ∃ evs, log w' = log w ++ Sleep 1 :: Get lat lon :: evs)
  ∧ cache self ⊆ cache self'
  ∧ (∀ lat2 lon2, cache_get lat2 lon2 (cache self')
                  = cache_get lat2 lon2 (cache self))
  ∧ (status r = "success" → size (cache self') = S (size (cache self)))
  ∧ (status r ≠ "success" → cache self' = cache self).
Proof.
  intros Hnan H1 Hr.
  assert (cache_get lat lon (cache self) = None) as Hmiss.
  { destruct Hnan as [-> | ->]; [done|by destruct lat]. }
  assert (∃ n, stored_key lat lon (cache self) = inr n) as [n Hn].
  { destruct Hnan as [-> | ->]; [by eexists|destruct lat; by eexists]. }
  pose proof (stored_key_fresh _ _ _ Hmiss) as Hfresh. rewrite Hn in Hfresh.
  destruct (miss_call _ _ _ _ _ _ _ _ Hmiss H1) as (Hhits & Hmisses & Hbegin).
  do 3 (split; [done|]).
  call_cases H1 as [t w1 Ht Hh Hl Hs Hf Hu
                 |n' data evs w1 _ Hn' Hresp Hh Hl Hf Hu
                 |le evs w1 _ Hh Hl Hf Hu]; cbn [cache].
  - congruence.
  - rewrite Hn. split; [by apply insert_subseteq|]. split; [|split].
    + intros [lat2|] [lon2|]; cbn; try done.
      by apply lookup_insert_ne.
    + intros _. by apply map_size_insert_None.
    + intros Hstatus. exfalso. apply Hstatus.
      rewrite Hh in Hr.
      rewrite (list_lookup_middle (heap w) [_]) in Hr by done.
      by injection Hr as <-.
  - split; [done|]. split; [done|]. split; [|done].
    intros Hstatus. exfalso. rewrite Hh, list_lookup_middle in Hr by done.
    injection Hr as <-. by apply error_is_not_success in Hstatus.
Qed.


(** ** Batches with [process_csv] *)

(** Past the validation, [process_csv] is its loop followed by one
    write of the output file. *)
Lemma process_csv_unfold input_file output_file lat_column lon_column
    self w df new cnt self' w1 :
  files w !! input_file = Some df →
  lat_column ∈ columns df → lon_column ∈ columns df →
  process_csv_rows provider df lat_column lon_column (data df) [] 0 self w
  = (inr (new, cnt), self', w1) →
  new ≠ [] →
  process_csv provider input_file output_file lat_column lon_column self w
  = (inr (cnt, len df), self',
     set_files
       (<[output_file :=
            concat df {| columns := place_columns;
                         data := place_cells <$> ((heap w1 !!!.) <$> new) |}]>
          (files w1)) w1).
Proof.
  intros Hfile Hlat Hlon Hloop Hne. unfold process_csv.
  rewrite (bind_inr _ _ _ _ df self w)
    by (unfold read_csv; by rewrite Hfile).
  rewrite decide_False by (intros [?|?]; done).
  rewrite (bind_inr _ _ _ _ _ _ _ Hloop).
  rewrite (bind_inr _ _ _ _ _ _ _ (deref_all_eq new self' w1)).
  rewrite drop_results by (by destruct new).
  reflexivity.
Qed.

(** The loop of [process_csv] on rows whose coordinate cells hold floats
    or are blank, with its
    counts: one call per row, and the count of successes is the number
    of results with status ["success"]. *)
Lemma process_csv_rows_counts df lat_column lon_column rows results n self w :
  Forall (λ row, is_Some (row_coordinates df lat_column lon_column row)) rows →
  ∃ new cnt self' w' ext,
    process_csv_rows provider df lat_column lon_column rows results n self w
    = (inr (results ++ new, cnt), self', w')
    ∧ heap w' = heap w ++ ext
    ∧ Forall2 (geocoded df lat_column lon_column w') rows new
    ∧ cnt = (n + Z.of_nat (length (filter (λ r, status r = "success")
                                     ((heap w' !!!.) <$> new))))%Z
    ∧ (cache_hits self' + cache_misses self'
       = cache_hits self + cache_misses self + Z.of_nat (length rows))%Z.
Proof.
  intros Hrows. revert results n self w.
  induction Hrows as [|row rest [[lat lon] Hrow] Hrest IH];
    intros results n self w.
  - exists [], n, self, w, []. cbn. rewrite !app_nil_r.
    repeat split; [constructor|lia..].
  - cbn [process_csv_rows].
    destruct (row_float_lat _ _ _ _ _ _ self w Hrow) as [Hlat Hlon].
    rewrite (bind_inr _ _ _ _ _ _ _ Hlat), (bind_inr _ _ _ _ _ _ _ Hlon).
    destruct (reverse_geocode provider lat lon 3 self w)
      as [[l self1] w1] eqn:Hcall.
    rewrite (bind_inr _ _ _ _ l self1 w1)
      by (unfold call_reverse_geocode; by rewrite Hcall).
    destruct (reverse_geocode_result _ _ _ _ _ _ _ _ Hcall)
      as (r & ext1 & Hh1 & Hr & Hrlat & Hrlon & Hf1 & _).
    destruct (call_counts _ _ _ _ _ _ _ _ Hcall) as (Hcount & _).
    rewrite (bind_inr _ _ _ _ (heap w1 !!! l) self1 w1) by done.
    rewrite (list_lookup_total_correct _ _ _ Hr).
    match goal with
    | |- context [process_csv_rows _ _ _ _ _ _ ?n1 _ _] =>
        destruct (IH (results ++ [l]) n1 self1 w1)
          as (new & cnt & self' & w' & ext & Hloop & Hh & Hnew & Hcnt & Hcalls)
    end.
    exists (l :: new), cnt, self', w', (ext1 ++ ext).
    rewrite Hloop, <-app_assoc.
    assert (heap w' !! l = Some r) as Hr'
      by (rewrite Hh; by apply lookup_app_l_Some).
    split; [done|]. split; [by rewrite Hh, Hh1, <-app_assoc|].
    split; [|split].
    + constructor; [|done].
      exists r. split; [done|]. by rewrite Hrlat, Hrlon.
    + rewrite Hcnt. cbn [fmap list_fmap].
      rewrite filter_cons, (list_lookup_total_correct _ _ _ Hr').
      repeat case_decide; cbn [length]; try done; lia.
    + cbn [length]. lia.
Qed.

(** X11: the counts of [process_csv].  On a table with at least one row
    whose coordinate cells hold floats or are blank (a blank cell is
    geocoded as NaN), the loop of [process_csv] returns one result per
    row, and [process_csv] writes the input rows,
    each followed by the place fields and the status of the result the
    loop returned for it, and returns two counts: the number of these
    results with the status ["success"] and the number of rows.  The
    first is at most the second, and the batch has made exactly one call
    of [reverse_geocode] per row (hits and misses together go up by the
    number of rows). *)
Theorem process_csv_counts input_file output_file lat_column lon_column
    self w df :
  files w !! input_file = Some df →
  lat_column ∈ columns df → lon_column ∈ columns df →
  numbers df lat_column lon_column →
  data df ≠ [] →
  ∃ results rs cnt self' w1,
    process_csv_rows provider df lat_column lon_column (data df) [] 0 self w
    = (inr (results, cnt), self', w1)
    ∧ Forall2 (λ l r, heap w1 !! l = Some r) results rs
    ∧ length rs = length (data df)
    ∧ process_csv provider input_file output_file lat_column lon_column self w
      = (inr (cnt, len df), self',
         set_files
           (<[output_file :=
                {| columns := columns df ++ place_columns;
                   data := zip_with app (data df) (place_cells <$> rs) |}]>
              (files w1)) w1)
    ∧ cnt = Z.of_nat (length (filter (λ r, status r = "success") rs))
    ∧ (0 ≤ cnt ≤ len df)%Z
    ∧ (cache_hits self' + cache_misses self'
       = cache_hits self + cache_misses self + len df)%Z.
Proof.
  intros Hfile Hlat Hlon Hnum Hne.
  destruct (process_csv_rows_counts df lat_column lon_column (data df) [] 0%Z
              self w Hnum)
    as (new & cnt & self' & w1 & ext & Hloop & Hh & Hnew & Hcnt & Hcalls).
  cbn in Hloop.
  assert (length (data df) = length new) as Hlen
    by (by eapply Forall2_length).
  assert (new ≠ []) as Hnew_ne by (destruct new, (data df); cbn in *; done).
  exists new, ((heap w1 !!!.) <$> new), cnt, self', w1.
  split; [done|]. split; [|split; [by rewrite length_fmap|]].
  { apply Forall2_fmap_r, Forall_Forall2_diag.
    eapply Forall2_Forall_r; [exact Hnew|].
    apply Forall_true. intros row l (r & Hr & _). cbn.
    by rewrite (list_lookup_total_correct _ _ _ Hr). }
  split; [|split; [by rewrite Hcnt|split; [|done]]].
  - rewrite (process_csv_unfold _ _ _ _ _ _ _ _ _ _ _ Hfile Hlat Hlon Hloop)
      by done.
    do 3 f_equal.
    rewrite concat_same_length; [done|]. cbn. by rewrite !length_fmap.
  - rewrite Hcnt. unfold len. rewrite Hlen.
    pose proof (length_filter (λ r, status r = "success")
                  ((heap w1 !!!.) <$> new)) as Hle.
    rewrite length_fmap in Hle. lia.
Qed.

(** X12: [process_csv] writes all or nothing.  Whatever the table holds:
    if [process_csv] raises, no file has changed; if it returns, the
    output file has been written and no other file has changed. *)
Theorem process_csv_writes_all_or_nothing input_file output_file
    lat_column lon_column self w x self' w' :
  process_csv provider input_file output_file lat_column lon_column self w
  = (x, self', w') →
  match x with
  | inl _ => files w' = files w
  | inr _ => ∃ out, files w' = <[output_file := out]> (files w)
  end.
Proof.
  unfold process_csv, mbind, M_mbind, M_bind, read_csv at 1.
  destruct (files w !! input_file) as [df|] eqn:Hfile;
    [|by intros [= <- <- <-]].
  case_decide; [by intros [= <- <- <-]|].
  destruct (process_csv_rows provider df lat_column lon_column (data df) []
              0 self w) as [[[e|[results n]] self1] w1] eqn:Hloop.
  - intros [= <- <- <-].
    by eapply (preserves_process_csv_rows (λ _ w0, files w0 = files w)
                 df lat_column lon_column (data df) [] 0%Z);
      [|reflexivity|exact Hloop];
      intros lat lon s0 w0 y s1 w2 HP; unfold call_reverse_geocode;
      destruct (reverse_geocode provider lat lon 3 s0 w0)
        as [[l s2] w3] eqn:E; intros [= <- <- <-];
      destruct (reverse_geocode_result _ _ _ _ _ _ _ _ E)
        as (? & ? & _ & _ & _ & _ & Hf & _); congruence.
  - assert (files w1 = files w) as Hf1.
    { eapply (preserves_process_csv_rows (λ _ w0, files w0 = files w)
                df lat_column lon_column (data df) [] 0%Z);
        [|reflexivity|exact Hloop].
      intros lat lon s0 w0 y s1 w2 HP. unfold call_reverse_geocode.
      destruct (reverse_geocode provider lat lon 3 s0 w0)
        as [[l s2] w3] eqn:E. intros [= <- <- <-].
      destruct (reverse_geocode_result _ _ _ _ _ _ _ _ E)
        as (? & ? & _ & _ & _ & _ & Hf & _). congruence. }
    rewrite deref_all_eq. unfold lift_exn.
    destruct (drop ["latitude"; "longitude"] _) as [e|dropped].
    + by intros [= <- <- <-].
    + intros [= <- <- <-]. cbn. rewrite Hf1. by eexists.
Qed.


(** *** Duplicate coordinates *)

Lemma row_keys_cons df lat_column lon_column row rest (lat lon : float) :
  row_coordinates df lat_column lon_column row = Some (Num lat, Num lon) →
  row_keys df lat_column lon_column (row :: rest)
  = cache_key lat lon :: row_keys df lat_column lon_column rest.
Proof. intros Hrow. unfold row_keys. cbn. by rewrite Hrow. Qed.

(** A call with attempts to a provider that always answers: the result
    is a success, the key is cached afterwards, and a request is sent
    exactly when the cache grows. *)
Lemma call_with_provider_up (lat lon : float) max_retries self w l self' w' :
  (∀ n la lo, ∃ data, provider n la lo = Response data) →
  (0 < max_retries)%Z →
  cache_ok self w →
  reverse_geocode provider lat lon max_retries self w = (l, self', w') →
  cache_ok self' w'
  ∧ (∃ r, heap w' !! l = Some r ∧ status r = "success")
  ∧ dom (cache self') = {[cache_key lat lon]} ∪ dom (cache self)
  ∧ sent w' + size (cache self) = sent w + size (cache self')
  ∧ (cache_misses self' + Z.of_nat (sent w)
     = cache_misses self + Z.of_nat (sent w'))%Z.
Proof.
  intros Hup Hm Hok H1.
  assert (safe [] self w) as Hsafe.
  { split; [done|]. split; [intros k t _ Hin|intros t Hin];
      by apply elem_of_nil in Hin. }
  split; [by destruct (reverse_geocode_safe _ _ _ _ _ _ _ _ _ Hsafe H1)|].
  destruct (cache self !! cache_key lat lon) as [t|] eqn:Hkey.
  - destruct (Hok _ _ Hkey) as (r & Hr & Hstatus).
    destruct (hit_result _ _ _ _ _ _ _ _ _ _ Hkey Hr H1)
      as (_ & Hs & _ & Hmisses & Hcache & Hres).
    split; [by eexists|]. rewrite Hcache, Hs, Hmisses.
    split; [|split; lia].
    symmetry. apply subseteq_union_1_L, singleton_subseteq_l.
    by apply elem_of_dom_2 in Hkey.
  - destruct (Hup (sent w) lat lon) as [data Hdata].
    destruct (answered_call lat lon max_retries 0 self w (λ _, "") data
                l self' w') as (_ & Hs & Hres & Hmisses & t & Hcache & _);
      [done|lia|intros i Hi; lia|by rewrite Nat.add_0_r|done|].
    split; [by eexists|]. rewrite Hcache, Hs, Hmisses.
    rewrite dom_insert_L, map_size_insert_None by done.
    split; [done|]. split; lia.
Qed.

Lemma process_csv_rows_provider_up df lat_column lon_column rows results n
    self w x self' w' :
  (∀ n la lo, ∃ data, provider n la lo = Response data) →
  Forall (floats df lat_column lon_column) rows →
  cache_ok self w →
  process_csv_rows provider df lat_column lon_column rows results n self w
  = (x, self', w') →
  cache_ok self' w'
  ∧ (∀ res cnt, x = inr (res, cnt) → cnt = (n + Z.of_nat (length rows))%Z)
  ∧ dom (cache self')
    = list_to_set (row_keys df lat_column lon_column rows) ∪ dom (cache self)
  ∧ sent w' + size (cache self) = sent w + size (cache self')
  ∧ (cache_misses self' + Z.of_nat (sent w)
     = cache_misses self + Z.of_nat (sent w'))%Z.
Proof.
  intros Hup Hrows. revert results n self w.
  induction Hrows as [|row rest (lat & lon & Hrow) Hrest IH];
    intros results n self w Hok.
  - cbn. intros [= <- <- <-].
    split; [done|]. split; [intros res cnt [= _ <-]; lia|].
    split; [by rewrite (left_id_L ∅ (∪))|]. split; lia.
  - cbn [process_csv_rows].
    destruct (row_float_lat _ _ _ _ _ _ self w Hrow) as [Hlat Hlon].
    rewrite (bind_inr _ _ _ _ _ _ _ Hlat), (bind_inr _ _ _ _ _ _ _ Hlon).
    destruct (reverse_geocode provider lat lon 3 self w)
      as [[l self1] w1] eqn:Hcall.
    rewrite (bind_inr _ _ _ _ l self1 w1)
      by (unfold call_reverse_geocode; by rewrite Hcall).
    assert (0 < 3)%Z as Hattempts by lia.
    destruct (call_with_provider_up _ _ _ _ _ _ _ _ Hup Hattempts Hok Hcall)
      as (Hok1 & (r & Hr & Hstatus) & Hdom1 & Hsent1 & Hmiss1).
    rewrite (bind_inr _ _ _ _ (heap w1 !!! l) self1 w1) by done.
    rewrite (list_lookup_total_correct _ _ _ Hr), decide_True by done.
    intros Hloop.
    destruct (IH _ _ _ _ Hok1 Hloop) as (Hok' & Hcnt & Hdom & Hsent & Hmiss).
    split; [done|]. split; [|split; [|split; lia]].
    + intros res cnt Hx. rewrite (Hcnt _ _ Hx). cbn [length]. lia.
    + rewrite Hdom, Hdom1, (row_keys_cons _ _ _ _ _ _ _ Hrow). cbn.
      by rewrite !(assoc_L (∪)), (comm_L (∪) (list_to_set _) {[_]}).
Qed.

(** X13: one request per new coordinate.  With a provider that always
    answers, [process_csv] on a table with at least one row and float
    coordinates reports every row as a success, leaves a cache entry for
    the rounded coordinates of every row, and sends exactly one request
    (and counts one miss) for each entry the cache gains: rows whose
    rounded coordinates are cached already, from before or from an
    earlier row, cost no request. *)
Theorem one_request_per_new_key input_file output_file lat_column lon_column
    self w df :
  (∀ n la lo, ∃ data, provider n la lo = Response data) →
  cache_ok self w →
  files w !! input_file = Some df →
  lat_column ∈ columns df → lon_column ∈ columns df →
  numeric df lat_column lon_column →
  data df ≠ [] →
  ∃ self' w',
    process_csv provider input_file output_file lat_column lon_column self w
    = (inr (len df, len df), self', w')
    ∧ dom (cache self')
      = list_to_set (row_keys df lat_column lon_column (data df))
        ∪ dom (cache self)
    ∧ sent w' + size (cache self) = sent w + size (cache self')
    ∧ (cache_misses self' + Z.of_nat (sent w)
       = cache_misses self + Z.of_nat (sent w'))%Z.
Proof.
  intros Hup Hok Hfile Hlat Hlon Hnum Hne.
  destruct (process_csv_rows_counts df lat_column lon_column (data df) [] 0%Z
              self w (numeric_rows _ _ _ Hnum))
    as (new & cnt & self' & w1 & ext & Hloop & _ & Hnew & _).
  cbn in Hloop.
  assert (new ≠ []) as Hnew_ne.
  { apply Forall2_length in Hnew. destruct new, (data df); cbn in *; done. }
  destruct (process_csv_rows_provider_up _ _ _ _ _ _ _ _ _ _ _ Hup Hnum Hok
              Hloop) as (_ & Hcnt & Hdom & Hsent & Hmiss).
  rewrite (Hcnt _ _ eq_refl), Z.add_0_l in Hloop. fold (len df) in Hloop.
  eexists _, _. split; [by eapply process_csv_unfold|]. by cbn.
Qed.

(** *** A batch on cached coordinates *)

Lemma process_csv_rows_cached df lat_column lon_column rows results n
    self w x self' w' :
  Forall (floats df lat_column lon_column) rows →
  (∀ k, k ∈ row_keys df lat_column lon_column rows →
        is_Some (cache self !! k)) →
  process_csv_rows provider df lat_column lon_column rows results n self w
  = (x, self', w') →
  log w' = log w ∧ sent w' = sent w ∧ cache self' = cache self
  ∧ cache_misses self' = cache_misses self
  ∧ cache_hits self' = (cache_hits self + Z.of_nat (length rows))%Z.
Proof.
  intros Hrows. revert results n self w.
  induction Hrows as [|row rest (lat & lon & Hrow) Hrest IH];
    intros results n self w Hcached.
  - cbn. intros [= <- <- <-]. repeat split. lia.
  - cbn [process_csv_rows].
    destruct (row_float_lat _ _ _ _ _ _ self w Hrow) as [Hlat Hlon].
    rewrite (bind_inr _ _ _ _ _ _ _ Hlat), (bind_inr _ _ _ _ _ _ _ Hlon).
    rewrite (row_keys_cons _ _ _ _ _ _ _ Hrow) in Hcached.
    destruct (Hcached (cache_key lat lon)) as [t Ht]; [by left|].
    destruct (reverse_geocode provider lat lon 3 self w)
      as [[l self1] w1] eqn:Hcall.
    rewrite (bind_inr _ _ _ _ l self1 w1)
      by (unfold call_reverse_geocode; by rewrite Hcall).
    rewrite (bind_inr _ _ _ _ (heap w1 !!! l) self1 w1) by done.
    rewrite (reverse_geocode_hit lat lon _ _ _ _ Ht) in Hcall.
    injection Hcall as <- <- <-.
    intros Hloop. apply IH in Hloop as (Hl & Hs & Hc & Hm & Hh).
    + cbn in *. rewrite Hl, Hs, Hc, Hm, Hh. repeat split. lia.
    + intros k Hk. cbn. apply Hcached. by right.
Qed.

(** X14: a batch on cached coordinates is free.  When the rounded
    coordinates of every row are in the cache, [process_csv] sends no
    request and does not sleep, whatever the provider would answer:
    every row is a hit. *)
Theorem cached_batch_sends_nothing input_file output_file
    lat_column lon_column self w df :
  files w !! input_file = Some df →
  lat_column ∈ columns df → lon_column ∈ columns df →
  numeric df lat_column lon_column →
  data df ≠ [] →
  (∀ k, k ∈ row_keys df lat_column lon_column (data df) →
        is_Some (cache self !! k)) →
  ∃ cnt self' w',
    process_csv provider input_file output_file lat_column lon_column self w
    = (inr (cnt, len df), self', w')
    ∧ log w' = log w ∧ sent w' = sent w
    ∧ cache self' = cache self
    ∧ cache_misses self' = cache_misses self
    ∧ cache_hits self' = (cache_hits self + len df)%Z.
Proof.
  intros Hfile Hlat Hlon Hnum Hne Hcached.
  destruct (process_csv_rows_counts df lat_column lon_column (data df) [] 0%Z
              self w (numeric_rows _ _ _ Hnum))
    as (new & cnt & self' & w1 & ext & Hloop & _ & Hnew & _).
  cbn in Hloop.
  assert (new ≠ []) as Hnew_ne.
  { apply Forall2_length in Hnew. destruct new, (data df); cbn in *; done. }
  destruct (process_csv_rows_cached _ _ _ _ _ _ _ _ _ _ _ Hnum Hcached Hloop)
    as (Hl & Hs & Hc & Hm & Hh).
  eexists _, _, _. split; [by eapply process_csv_unfold|]. by cbn.
Qed.


(** ** The interactive flow *)

Lemma column_map_skip cols (m : gmap string string) key :
  (∀ c, c ∈ cols → lower c ≠ key) →
  foldl (λ m col, <[lower col := col]> m) m cols !! key = m !! key.
Proof.
  revert m. induction cols as [|col cols IH]; intros m Hcols; [done|].
  cbn. rewrite IH by (intros c Hc; apply Hcols; by right).
  apply lookup_insert_ne, Hcols. by left.
Qed.

(** X15: when several columns have the name that is looked up, up to
    case, [main] takes the last of them. *)
Theorem column_map_takes_last cols before c after name :
  cols = before ++ c :: after →
  lower c = lower name →
  (∀ c', c' ∈ after → lower c' ≠ lower name) →
  column_map cols !! lower name = Some c.
Proof.
  intros -> Hc Hafter. unfold column_map.
  rewrite foldl_app. cbn. rewrite column_map_skip by done.
  rewrite Hc. apply lookup_insert_eq.
Qed.

(** The loop of [process_geocoding] keeps what its calls, its writes of
    the output file and its captions keep. *)
Lemma preserves_process_geocoding_rows P df lat_column lon_column output_path
    total_rows rows results processed :
  (∀ lat lon, preserves P (call_reverse_geocode provider lat lon)) →
  (∀ self w out m,
     P self w →
     P self (st_write m (set_files (<[output_path := out]> (files w)) w))) →
  preserves P
    (process_geocoding_rows provider df lat_column lon_column output_path
       total_rows rows results processed).
Proof.
  intros Hcall Hsave. revert results processed.
  induction rows as [|row rest IH]; intros results processed; cbn.
  - apply preserves_ret.
  - apply preserves_bind; [apply preserves_row_float|intros lat].
    apply preserves_bind; [apply preserves_row_float|intros lon].
    apply preserves_bind; [apply Hcall|intros l].
    apply preserves_bind; [|intros _; apply IH].
    case_decide; [|apply preserves_ret].
    unfold save_progress.
    apply preserves_bind; [apply preserves_deref_all|intros rs].
    apply preserves_bind; [apply preserves_lift_exn|intros dropped].
    intros self w x self' w' HP. cbn. intros [= <- <- <-].
    by apply Hsave.
Qed.

(** X16: the batch of the page paces its requests as well: in the log
    that [process_geocoding] leaves, every request comes right after a
    sleep of at least one second, if that held of the log before;
    whether the batch completes or stops on an exception. *)
Theorem process_geocoding_is_paced df lat_column lon_column output_path w :
  paced false (log w) = true →
  paced false
    (log (process_geocoding provider df lat_column lon_column output_path w))
  = true.
Proof.
  intros Hp. unfold process_geocoding.
  destruct (process_geocoding_try provider df lat_column lon_column
              output_path __init__ w) as [[x self'] w'] eqn:Htry.
  assert (preserves (λ _ w0, paced false (log w0) = true)
            (process_geocoding_try provider df lat_column lon_column
               output_path)) as Hkeeps.
  { unfold process_geocoding_try.
    apply preserves_bind; [|intros [results processed]].
    { apply preserves_process_geocoding_rows;
        [apply preserves_paced_call|by intros]. }
    apply preserves_bind; [apply preserves_deref_all|intros rs].
    apply preserves_bind; [apply preserves_lift_exn|intros dropped].
    apply preserves_bind; [by apply preserves_do_world|intros _].
    apply preserves_bind; [by apply preserves_do_world|intros _].
    apply preserves_bind; [by intros ? ? ? ? ? ? [= <- <- <-]|intros g].
    apply preserves_bind; [|intros _].
    { case_decide; [by apply preserves_do_world|apply preserves_ret]. }
    apply preserves_bind; [by apply preserves_do_world|intros _].
    apply preserves_bind; [by intros ? ? ? ? ? ? [= <- <- <-]|intros g'].
    apply preserves_bind; [by apply preserves_do_world|intros _].
    by apply preserves_do_world. }
  pose proof (Hkeeps _ _ _ _ _ Hp Htry) as Hp'.
  by destruct x.
Qed.


Lemma process_geocoding_rows_other_files df lat_column lon_column output_path
    total_rows rows results processed self w x self' w' path :
  path ≠ output_path →
  process_geocoding_rows provider df lat_column lon_column output_path
    total_rows rows results processed self w = (x, self', w') →
  files w' !! path = files w !! path.
Proof.
  intros Hpath Hloop.
  eapply (preserves_process_geocoding_rows
            (λ _ w0, files w0 !! path = files w !! path));
    [| |reflexivity|exact Hloop].
  - intros lat lon s0 w0 y s1 w2 HP. unfold call_reverse_geocode.
    destruct (reverse_geocode provider lat lon 3 s0 w0)
      as [[l s2] w3] eqn:E. intros [= <- <- <-].
    destruct (reverse_geocode_result _ _ _ _ _ _ _ _ E)
      as (? & ? & _ & _ & _ & _ & Hf & _). congruence.
  - intros s0 w0 out m HP. cbn. by rewrite lookup_insert_ne.
Qed.

Lemma process_geocoding_completes_aux df lat_column lon_column output_path w :
  numeric df lat_column lon_column →
  data df ≠ [] →
  ∃ results rs self1 w1 shown,
    process_geocoding_rows provider df lat_column lon_column output_path
      (len df) (data df) [] 0 __init__ w
    = (inr (results, len df), self1, w1)
    ∧ Forall2 (λ l r, heap w1 !! l = Some r) results rs
    ∧ Forall2 (λ row r, row_coordinates df lat_column lon_column row
                        = Some (latitude r, longitude r)) (data df) rs
    ∧ let w' := process_geocoding provider df lat_column lon_column
                  output_path w in
      let output_df := {| columns := columns df ++ place_columns;
                          data := zip_with app (data df)
                                    (place_cells <$> rs) |} in
      ui w' = shown ++ [st_dataframe output_df;
                        st_download_button (Some output_df)]
      ∧ st_complete
          (Z.of_nat (length (filter (λ r, status r = "success") rs)))
          (len df)
        ∈ shown
      ∧ files w' !! output_path = None
      ∧ ∀ path, path ≠ output_path → files w' !! path = files w !! path.
Proof.
  intros Hnum Hne.
  destruct (process_geocoding_rows_ok df lat_column lon_column output_path
              (len df) (data df) [] 0 __init__ w
              (numeric_rows _ _ _ Hnum))
    as (new & self1 & w1 & ext & Hloop & Hh & Hnew & _).
  cbn in Hloop. fold (len df) in Hloop.
  assert (length (data df) = length new) as Hlen
    by (by eapply Forall2_length).
  assert (new ≠ []) as Hnew_ne by (destruct new, (data df); cbn in *; done).
  set (rs := (heap w1 !!!.) <$> new).
  exists new, rs, self1, w1.
  eexists (ui w1 ++ st_complete _ (len df)
           :: (if decide (cache_hits self1 > 0)%Z
               then [st_cache_saved (cache_hits self1)] else [])).
  split; [done|]. split; [|split].
  { apply Forall2_fmap_r, Forall_Forall2_diag.
    eapply Forall2_Forall_r; [exact Hnew|].
    apply Forall_true. intros row l (r & Hr & _). cbn.
    by rewrite (list_lookup_total_correct _ _ _ Hr). }
  { apply Forall2_fmap_r. eapply Forall2_impl; [exact Hnew|].
    intros row l (r & Hr & Hrow). cbn.
    by rewrite (list_lookup_total_correct _ _ _ Hr). }
  unfold process_geocoding, process_geocoding_try.
  rewrite (bind_inr _ _ _ _ _ _ _ Hloop).
  rewrite (bind_inr _ _ _ _ _ _ _ (deref_all_eq new self1 w1)).
  fold rs. rewrite drop_results by (subst rs; by destruct new).
  unfold mbind, M_mbind, M_bind, lift_exn, to_csv, do_world, get_self,
    get_file, unlink.
  cbn -[concat].
  rewrite concat_same_length by (cbn; subst rs; by rewrite !length_fmap).
  cbn [columns data].
  split; [|split; [|split]].
  - case_decide; cbn; rewrite lookup_insert_eq, <-!app_assoc; done.
  - apply elem_of_app. right. by left.
  - case_decide; cbn; by rewrite lookup_delete_eq.
  - intros path Hpath.
    rewrite <-(process_geocoding_rows_other_files _ _ _ _ _ _ _ _ _ _ _ _ _
                 path Hpath Hloop).
    case_decide; cbn; by rewrite lookup_delete_ne, lookup_insert_ne.
Qed.

(** X17: a batch of the page that completes.  On a table with at least
    one row whose coordinate columns hold floats, the loop of
    [process_geocoding] returns one result per row and
    [process_geocoding] raises nothing: it reports the number of these
    results with the status ["success"] and the number of rows, shows
    the table of all input rows, in order, each followed by the place
    fields and the status of the result the loop returned for it, offers
    exactly this table for download, and removes its temporary output
    file; no other file is touched. *)
Theorem process_geocoding_completes df lat_column lon_column output_path w :
  numeric df lat_column lon_column →
  data df ≠ [] →
  ∃ results rs self1 w1 shown,
    process_geocoding_rows provider df lat_column lon_column output_path
      (len df) (data df) [] 0 __init__ w
    = (inr (results, len df), self1, w1)
    ∧ Forall2 (λ l r, heap w1 !! l = Some r) results rs
    ∧ Forall2 (λ row r, row_coordinates df lat_column lon_column row
                        = Some (latitude r, longitude r)) (data df) rs
    ∧ let w' := process_geocoding provider df lat_column lon_column
                  output_path w in
      let output_df := {| columns := columns df ++ place_columns;
                          data := zip_with app (data df)
                                    (place_cells <$> rs) |} in
      ui w' = shown ++ [st_dataframe output_df;
                        st_download_button (Some output_df)]
      ∧ st_complete
          (Z.of_nat (length (filter (λ r, status r = "success") rs)))
          (len df)
        ∈ shown
      ∧ files w' !! output_path = None
      ∧ ∀ path, path ≠ output_path → files w' !! path = files w !! path.
Proof. apply process_geocoding_completes_aux. Qed.

(** X18: from the names typed on the page to the table shown.  When the
    button is pressed and both names are found among the columns up to
    case, [main] reports the upload and the columns found and runs the
    batch on these columns: on a table with at least one row that holds
    floats in them, the loop of the batch returns one result per row,
    and the page ends with the table of all input rows, in order, each
    followed by the place fields and the status of the result the loop
    returned for it, and with the download of this table. *)
Theorem main_shows_results df lat_column lon_column output_path w
    actual_lat_column actual_lon_column :
  column_map (columns df) !! lower lat_column = Some actual_lat_column →
  column_map (columns df) !! lower lon_column = Some actual_lon_column →
  numeric df actual_lat_column actual_lon_column →
  data df ≠ [] →
  let w0 :=
    st_write (st_success ("✅ Found required columns: '"
                          +:+ actual_lat_column +:+ "' and '"
                          +:+ actual_lon_column +:+ "'"))
      (st_write (st_success ("✅ File uploaded successfully! Found "
                             +:+ pretty (len df) +:+ " rows.")) w) in
  main provider (Some df) lat_column lon_column true output_path w
  = process_geocoding provider df actual_lat_column actual_lon_column
      output_path w0
  ∧ ∃ results rs self1 w1 shown,
      process_geocoding_rows provider df actual_lat_column actual_lon_column
        output_path (len df) (data df) [] 0 __init__ w0
      = (inr (results, len df), self1, w1)
      ∧ Forall2 (λ l r, heap w1 !! l = Some r) results rs
      ∧ Forall2 (λ row r, row_coordinates df actual_lat_column
                            actual_lon_column row
                          = Some (latitude r, longitude r)) (data df) rs
      ∧ let output_df := {| columns := columns df ++ place_columns;
                            data := zip_with app (data df)
                                      (place_cells <$> rs) |} in
        ui (main provider (Some df) lat_column lon_column true output_path w)
        = shown ++ [st_dataframe output_df;
                    st_download_button (Some output_df)].
Proof.
  intros Hlat Hlon Hnum Hne w0.
  assert (main provider (Some df) lat_column lon_column true output_path w
          = process_geocoding provider df actual_lat_column actual_lon_column
              output_path w0) as Hmain.
  { unfold main. by rewrite Hlat, Hlon. }
  split; [exact Hmain|]. rewrite Hmain.
  destruct (process_geocoding_completes_aux df actual_lat_column
              actual_lon_column output_path w0 Hnum Hne)
    as (results & rs & self1 & w1 & shown & Hloop & Hheap & Hrs & Hui & _).
  by exists results, rs, self1, w1, shown.
Qed.


(** ** Between two saves *)

(** The loop over rows followed by more rows is the loop over the
    first, then the loop over the others. *)
Lemma process_geocoding_rows_app df lat_column lon_column output_path
    total_rows rows1 rows2 results processed self w :
  process_geocoding_rows provider df lat_column lon_column output_path
    total_rows (rows1 ++ rows2) results processed self w
  = match process_geocoding_rows provider df lat_column lon_column
            output_path total_rows rows1 results processed self w with
    | (inr (results1, processed1), self1, w1) =>
        process_geocoding_rows provider df lat_column lon_column output_path
          total_rows rows2 results1 processed1 self1 w1
    | (inl e, self1, w1) => (inl e, self1, w1)
    end.
Proof.
  revert results processed self w.
  induction rows1 as [|row rows1 IH]; intros results processed self w;
    [done|].
  cbn [app process_geocoding_rows]. unfold mbind, M_mbind, M_bind.
  destruct (row_float df row lat_column self w) as [[[e|lat] s1] w1];
    [done|].
  destruct (row_float df row lon_column s1 w1) as [[[e|lon] s2] w2];
    [done|].
  destruct (call_reverse_geocode provider lat lon s2 w2)
    as [[[e|l] s3] w3]; [done|].
  match goal with
  | |- context [(if ?d then ?a else ?b) s3 w3] =>
      destruct ((if d then a else b) s3 w3) as [[[e|[]] s4] w4]; [done|]
  end.
  apply IH.
Qed.

(** Rows whose counts are neither a multiple of the interval nor the
    total are processed without a write. *)
Lemma process_geocoding_rows_no_save df lat_column lon_column output_path
    total_rows rows results processed self w x self' w' :
  (∀ p, (processed < p ≤ processed + Z.of_nat (length rows))%Z →
        (p `mod` batch_save_interval)%Z ≠ 0%Z ∧ p ≠ total_rows) →
  process_geocoding_rows provider df lat_column lon_column output_path
    total_rows rows results processed self w = (x, self', w') →
  files w' = files w.
Proof.
  revert results processed self w.
  induction rows as [|row rest IH]; intros results processed self w Hp.
  - by intros [= <- <- <-].
  - cbn [process_geocoding_rows]. unfold mbind, M_mbind, M_bind.
    destruct (row_float df row lat_column self w)
      as [[[e|lat] s1] w1] eqn:Elat;
      apply preserves_row_float_eq in Elat as [-> ->];
      [by intros [= <- <- <-]|].
    destruct (row_float df row lon_column self w)
      as [[[e|lon] s1] w1] eqn:Elon;
      apply preserves_row_float_eq in Elon as [-> ->];
      [by intros [= <- <- <-]|].
    unfold call_reverse_geocode.
    destruct (reverse_geocode provider lat lon 3 self w)
      as [[l self1] w1] eqn:Hcall.
    destruct (reverse_geocode_result _ _ _ _ _ _ _ _ Hcall)
      as (? & ? & _ & _ & _ & _ & Hf & _).
    rewrite decide_False; cbn.
    + intros Hloop. apply IH in Hloop; [congruence|].
      intros p Hrange. apply Hp. cbn [length]. lia.
    + specialize (Hp (processed + 1)%Z). cbn [length] in Hp.
      intros [?|?]; apply Hp; try done; lia.
Qed.

(** X19: what is on disk between two saves.  In a batch run over a table
    whose coordinate columns hold floats, after [k] rows with more rows
    to come, the output file holds exactly the rows of the last save:
    the first [50 * (k / 50)] input rows, each followed by the place
    fields and the status of the result the loop has returned for it.
    Nothing has been written while [k < 50], and at most 49 processed
    rows are not in the file afterwards. *)
Theorem snapshot_between_saves df lat_column lon_column output_path
    (k : nat) w :
  numeric df lat_column lon_column →
  k < length (data df) →
  ∃ results self' w',
    process_geocoding_rows provider df lat_column lon_column output_path
      (len df) (take k (data df)) [] 0 __init__ w
    = (inr (results, Z.of_nat k), self', w')
    ∧ length results = k
    ∧ (k < 50 → files w' = files w)
    ∧ ((50 ≤ k)%nat →
       ∃ rs,
         Forall2 (λ l r, heap w' !! l = Some r)
           (take (50 * (k / 50)) results) rs
         ∧ Forall2 (λ row r, row_coordinates df lat_column lon_column row
                             = Some (latitude r, longitude r))
             (take (50 * (k / 50)) (data df)) rs
         ∧ files w' !! output_path
           = Some {| columns := columns df ++ place_columns;
                     data := zip_with app (take (50 * (k / 50)) (data df))
                               (place_cells <$> rs) |}
         ∧ k - 50 * (k / 50) < 50).
Proof.
  intros Hnum Hk.
  remember (50 * (k / 50)) as saved eqn:Hdef.
  assert (saved ≤ k < saved + 50)%nat as Hsaved.
  { subst saved. pose proof (Nat.div_mod_eq k 50).
    pose proof (Nat.mod_upper_bound k 50). lia. }
  assert (take k (data df)
          = take saved (data df) ++ skipn saved (take k (data df))) as Hsplit.
  { rewrite <-(take_drop saved (take k (data df))) at 1.
    by rewrite take_take, Nat.min_l by lia. }
  assert (length (take saved (data df)) = saved) as Hlen1
    by (apply length_take_le; lia).
  assert (length (skipn saved (take k (data df))) = k - saved) as Hlen2
    by (rewrite length_drop, length_take_le; lia).
  destruct (process_geocoding_rows_ok df lat_column lon_column output_path
              (len df) (take saved (data df)) [] 0 __init__ w)
    as (new1 & self1 & w1 & ext1 & Hloop1 & Hh1 & Hnew1 & Hfile1).
  { by apply Forall_take, numeric_rows. }
  destruct (process_geocoding_rows_ok df lat_column lon_column output_path
              (len df) (skipn saved (take k (data df))) new1
              (Z.of_nat saved) self1 w1)
    as (new2 & self2 & w2 & ext2 & Hloop2 & Hh2 & Hnew2 & _).
  { by apply Forall_drop, Forall_take, numeric_rows. }
  rewrite Hlen1 in Hloop1, Hfile1. cbn [app] in Hloop1. cbn in Hfile1.
  rewrite Z.add_0_l in Hloop1, Hfile1.
  rewrite Hlen2 in Hloop2.
  assert (files w2 = files w1) as Hfiles.
  { eapply process_geocoding_rows_no_save; [|exact Hloop2].
    intros p Hp. rewrite Hlen2 in Hp. unfold batch_save_interval, len.
    subst saved. split; [|lia].
    intros Hmod. apply Z.mod_divide in Hmod as [c Hc]; lia. }
  assert (length new1 = saved) as Hlen
    by (by rewrite <-(Forall2_length _ _ _ Hnew1)).
  assert (length new2 = k - saved) as Hlen'
    by (by rewrite <-(Forall2_length _ _ _ Hnew2)).
  exists (new1 ++ new2), self2, w2.
  split; [|split; [|split]].
  - rewrite Hsplit, process_geocoding_rows_app, Hloop1, Hloop2.
    by replace (Z.of_nat saved + Z.of_nat (k - saved))%Z
      with (Z.of_nat k) by lia.
  - rewrite length_app. lia.
  - intros Hlt. rewrite Hfiles.
    assert (saved = 0) as Hzero.
    { subst saved. by rewrite Nat.div_small. }
    rewrite Hzero in Hloop1. cbn in Hloop1. by injection Hloop1 as _ _ <-.
  - intros Hge.
    assert (0 < saved) as Hpos.
    { subst saved. pose proof (Nat.div_str_pos k 50). lia. }
    exists ((heap w1 !!!.) <$> new1).
    split; [|split; [|split; [|lia]]].
    + rewrite take_app_length' by done.
      apply Forall2_fmap_r, Forall_Forall2_diag.
      eapply Forall2_Forall_r; [exact Hnew1|].
      apply Forall_true. intros row l (r & Hr & _). cbn.
      rewrite (list_lookup_total_correct _ _ _ Hr), Hh2.
      by apply lookup_app_l_Some.
    + apply Forall2_fmap_r. eapply Forall2_impl; [exact Hnew1|].
      intros row l (r & Hr & Hrow). cbn.
      by rewrite (list_lookup_total_correct _ _ _ Hr).
    + rewrite Hfiles, Hfile1.
      * f_equal. unfold iloc. rewrite Nat2Z.id.
        rewrite concat_same_length; cbn [data columns]; [done|].
        by rewrite !length_fmap, Hlen1, Hlen.
      * destruct (take saved (data df)); [cbn in Hlen1; lia|done].
      * left. unfold batch_save_interval. subst saved.
        rewrite Nat2Z.inj_mul, Z.mul_comm. apply Z.mod_mul. lia.
Qed.


End Properties.

(** * The properties on concrete runs *)

Import Fixed.

(** A provider that is down: the failure is not cached. *)
Lemma error_is_not_cached_witness :
  let first :=
    reverse_geocode down 48856600%Z 2352200%Z 3 __init__ empty_world in
  cache first.1.2 = cache __init__
  ∧ cache first.1.2 !! cache_key 48856600%Z 2352200%Z = None.
Proof.
  intros first.
  destruct (error_is_not_cached (H:=micro_float) down 48856600%Z 2352200%Z 3 __init__
              empty_world first.1.1 first.1.2 first.2
              (error_result (H:=micro_float) 48856600%Z 2352200%Z
                 (Some "timeout 2")))
    as (Hcache & Hkey & _).
  - apply cache_ok_init.
  - apply triple_eta.
  - vm_compute. reflexivity.
  - vm_compute. reflexivity.
  - split; [exact Hcache|exact Hkey].
Defined.

Lemma reverse_geocode_three_failures_witness :
  let call :=
    reverse_geocode down 48856600%Z 2352200%Z 3 __init__ empty_world in
  log call.2 = log empty_world ++
      [Sleep 1; Get 48856600%Z 2352200%Z; Sleep 2;
       Sleep 1; Get 48856600%Z 2352200%Z; Sleep 4;
       Sleep 1; Get 48856600%Z 2352200%Z]
  ∧ sent call.2 = 3 + sent empty_world
  ∧ cache call.1.2 = cache __init__
  ∧ heap call.2 !! call.1.1 =
      Some {| latitude := 48856600%Z; longitude := 2352200%Z; city := None;
              state := None; country := None; country_code := None;
              postcode := None; display_name := None;
              status := "error: " +:+ "timeout 2" |}.
Proof.
  intros call.
  apply (reverse_geocode_three_failures (H:=micro_float) down 48856600%Z 2352200%Z __init__
           empty_world "timeout 0" "timeout 1" "timeout 2").
  - vm_compute. reflexivity.
  - vm_compute. reflexivity.
  - vm_compute. reflexivity.
  - vm_compute. reflexivity.
  - apply triple_eta.
Defined.

Lemma reverse_geocode_no_attempts_witness :
  let call :=
    reverse_geocode (up_after 0) 48856600%Z 2352200%Z 0 __init__ empty_world in
  log call.2 = log empty_world ∧ sent call.2 = sent empty_world
  ∧ cache_misses call.1.2 = (cache_misses __init__ + 1)%Z
  ∧ cache_hits call.1.2 = cache_hits __init__
  ∧ cache call.1.2 = cache __init__
  ∧ heap call.2 !! call.1.1 =
      Some {| latitude := 48856600%Z; longitude := 2352200%Z; city := None;
              state := None; country := None; country_code := None;
              postcode := None; display_name := None;
              status := "error: None" |}.
Proof.
  intros call.
  apply (reverse_geocode_no_attempts (H:=micro_float) (up_after 0) 48856600%Z 2352200%Z
           __init__ empty_world).
  - vm_compute. reflexivity.
  - apply triple_eta.
Defined.

(** A call for London whose first request fails and whose second is
    answered with an address object that holds a city and nothing else:
    the state, the country and the postcode of the result are [None],
    its country code is the empty string. *)
Lemma success_result_fields_witness :
  let call :=
    reverse_geocode (up_after 1) 51507400%Z (-127800)%Z 3 __init__
      empty_world in
  up_after 1 1 51507400%Z (-127800)%Z
  = Response {| data_address := Some {["city" := "London"]};
                data_display_name := Some "London, UK" |}
  ∧ ∃ r,
      heap call.2 !! call.1.1 = Some r
      ∧ status r = "success"
      ∧ city r = Some "London"
      ∧ state r = None ∧ country r = None ∧ postcode r = None
      ∧ country_code r = Some ""
      ∧ country_code r ≠ None.
Proof.
  intros call. split; [reflexivity|].
  destruct (success_result_fields (H:=micro_float) (up_after 1) 51507400%Z
              (-127800)%Z 3 1 __init__ empty_world timeout
              (city_of 51507400%Z (-127800)%Z) call.1.1 call.1.2 call.2)
    as (r & Hr & Hstatus & _ & _ & Hcity & _ & Hstate & Hcountry & Hpostcode
        & _ & _ & Hcode & _).
  - reflexivity.
  - lia.
  - intros i Hi. destruct i as [|i]; [reflexivity|lia].
  - reflexivity.
  - apply triple_eta.
  - destruct Hcode as [Hempty Hnot]; [reflexivity|].
    exists r. split; [exact Hr|]. split; [exact Hstatus|].
    split; [exact Hcity|]. split; [exact Hstate|]. split; [exact Hcountry|].
    split; [exact Hpostcode|]. split; [exact Hempty|exact Hnot].
Defined.

Lemma extract_city_first_present_witness :
  _extract_city {["village" := "Shelbyville"; "hamlet" := "Ogdenville"]}
  = Some "Shelbyville".
Proof.
  apply (proj1 (proj2 (extract_city_first_present _))
           ["city"; "town"] "village" ["municipality"; "hamlet"]).
  - reflexivity.
  - intros f Hf. apply elem_of_cons in Hf as [->|Hf]; [reflexivity|].
    apply elem_of_cons in Hf as [->|Hf]; [reflexivity|].
    by apply elem_of_nil in Hf.
  - reflexivity.
Defined.

(** The columns are there up to case, and [process_csv] with the default
    names raises all the same; its message names the requested columns
    and not the available ones. *)
Lemma process_csv_lookup_is_case_sensitive :
  (∃ c, c ∈ columns capitalised ∧ lower c = lower "latitude")
  ∧ (∃ c, c ∈ columns capitalised ∧ lower c = lower "longitude")
  ∧ process_csv down "in.csv" "out.csv" "latitude" "longitude" __init__
      (with_file "in.csv" capitalised)
    = (inl (ValueError
              "Columns 'latitude' and/or 'longitude' not found in CSV"),
       __init__, with_file "in.csv" capitalised).
Proof.
  split; [|split].
  - exists "Latitude". split; [repeat constructor|reflexivity].
  - exists "Longitude". split; [repeat constructor|reflexivity].
  - reflexivity.
Defined.

Lemma column_lookup_witness :
  is_Some (column_map ["Latitude"; "Longitude"] !! lower "LATITUDE")
  ∧ process_csv down "in.csv" "out.csv" "latitude" "longitude" __init__
      (with_file "in.csv" capitalised)
    = (inl (ValueError ("Columns '" +:+ "latitude" +:+ "' and/or '"
                        +:+ "longitude" +:+ "' not found in CSV")),
       __init__, with_file "in.csv" capitalised).
Proof.
  destruct (column_lookup (H:=micro_float) down) as (Hmain & _ & Hcsv).
  split.
  - apply (Hmain ["Latitude"; "Longitude"] "LATITUDE").
    exists "Latitude". split; [repeat constructor|reflexivity].
  - apply (Hcsv "in.csv" "out.csv" "latitude" "longitude" __init__
             (with_file "in.csv" capitalised) capitalised).
    + reflexivity.
    + left. intros Hin. apply elem_of_cons in Hin as [Hin|Hin]; [done|].
      apply elem_of_cons in Hin as [Hin|Hin]; [done|].
      by apply elem_of_nil in Hin.
Defined.

(** A table without rows. *)
Lemma batch_without_rows_raises_witness :
  process_csv down "in.csv" "out.csv" "latitude" "longitude" __init__
    (with_file "in.csv" no_rows)
  = (inl (KeyError "['latitude', 'longitude'] not found in axis"),
     __init__, with_file "in.csv" no_rows)
  ∧ process_geocoding down no_rows "latitude" "longitude" "out.csv"
      empty_world
    = st_write (st_exception "❌ Error during geocoding: "
                  (KeyError "['latitude', 'longitude'] not found in axis"))
        empty_world.
Proof.
  destruct (batch_without_rows_raises (H:=micro_float) down no_rows
              "latitude" "longitude") as (Hcsv & Happ).
  - reflexivity.
  - repeat constructor.
  - repeat constructor.
  - split.
    + apply Hcsv. reflexivity.
    + apply Happ.
Defined.

(** 50 of 120 rows: the output file has exactly 50 data rows. *)
Lemma snapshot_after_rows_witness :
  ∃ results self' w' out,
    process_geocoding_rows nowhere hundred_twenty "latitude" "longitude"
      "out.csv" (len hundred_twenty) (take 50 (data hundred_twenty)) [] 0
      __init__ empty_world
    = (inr (results, 50%Z), self', w')
    ∧ files w' !! "out.csv" = Some out
    ∧ length (data out) = 50.
Proof.
  destruct (snapshot_after_rows (H:=micro_float) nowhere hundred_twenty
              "latitude" "longitude" "out.csv" 50 empty_world)
    as (_ & results & rs & self' & w' & Hrun & _ & _ & Hfile & Hlen).
  - unfold numeric. apply Forall_fmap, Forall_true. intros i.
    by eexists _, _.
  - vm_compute. lia.
  - left. reflexivity.
  - exists results, self', w'. eexists.
    split; [exact Hrun|]. split; [exact Hfile|exact Hlen].
Defined.

(** Paris, with a provider that fails once; then a call for London, an
    assignment to the first result, and a look at the statistics; then
    Paris again at coordinates that differ in the sixth decimal: a hit,
    with the place fields as first returned. *)
Lemma second_call_is_hit_witness :
  let first :=
    reverse_geocode (up_after 1) 48856600%Z 2352200%Z 3 __init__ empty_world in
  let between :=
    [Call_reverse_geocode 51507400%Z (-127800)%Z 3;
     Mutate_result 0 (λ r, error_result (latitude r) (longitude r) None);
     Call_get_cache_stats] in
  let c2 :=
    run (up_after 1) between
      {| geocoder := first.1.2; env := first.2; held := [] ++ [first.1.1] |} in
  let second :=
    reverse_geocode (up_after 1) 48856604%Z 2352201%Z 3 (geocoder c2)
      (env c2) in
  log second.2 = log (env c2) ∧ sent second.2 = sent (env c2)
  ∧ cache_hits second.1.2 = (cache_hits (geocoder c2) + 1)%Z
  ∧ cache_misses second.1.2 = cache_misses (geocoder c2)
  ∧ ∃ r2,
      heap second.2 !! second.1.1 = Some r2
      ∧ latitude r2 = 48856604%Z ∧ longitude r2 = 2352201%Z
      ∧ same_place r2
          (success_result 48856600%Z 2352200%Z
             (city_of 48856600%Z 2352200%Z)).
Proof.
  intros first between c2 second.
  apply (second_call_is_hit (H:=micro_float) (up_after 1)
           48856600%Z 2352200%Z 3 48856604%Z 2352201%Z 3 between
           (start empty_world) c2 first.1.1 first.1.2 first.2
           (success_result (H:=micro_float) 48856600%Z 2352200%Z
              (city_of 48856600%Z 2352200%Z))
           second.1.1 second.1.2 second.2).
  - apply safe_start.
  - vm_compute. reflexivity.
  - apply triple_eta.
  - reflexivity.
  - reflexivity.
  - intros Hin. apply elem_of_cons in Hin as [Hin|Hin]; [discriminate|].
    apply elem_of_cons in Hin as [Hin|Hin]; [discriminate|].
    apply elem_of_cons in Hin as [Hin|Hin]; [discriminate|].
    by apply elem_of_nil in Hin.
  - reflexivity.
  - apply triple_eta.
Defined.

(** ** Further properties on concrete runs *)

(** Five attempts against a provider that is down. *)
Lemma every_attempt_fails_witness :
  let call :=
    reverse_geocode down 48856600%Z 2352200%Z 5 __init__ empty_world in
  log call.2
  = log empty_world
    ++ flat_map (failed_attempt (H:=micro_float) 5 48856600%Z 2352200%Z) (range 5)
  ∧ sent call.2 = sent empty_world + Z.to_nat 5
  ∧ cache call.1.2 = cache __init__
  ∧ cache_misses call.1.2 = (cache_misses __init__ + 1)%Z
  ∧ heap call.2 !! call.1.1
    = Some (error_result (H:=micro_float) 48856600%Z 2352200%Z
              (if decide (0 < 5)%Z
               then Some (timeout (sent empty_world + Z.to_nat 5 - 1))
               else None)).
Proof.
  intros call.
  apply (every_attempt_fails (H:=micro_float) down 48856600%Z 2352200%Z 5
           __init__ empty_world timeout).
  - reflexivity.
  - intros i Hi. reflexivity.
  - apply triple_eta.
Defined.

(** Two failures, then an answer. *)
Lemma failures_then_answer_witness :
  let call :=
    reverse_geocode (up_after 2) 48856600%Z 2352200%Z 3 __init__
      empty_world in
  sent call.2 = 3
  ∧ heap call.2 !! call.1.1
    = Some (success_result (H:=micro_float) 48856600%Z 2352200%Z
              (city_of 48856600%Z 2352200%Z)).
Proof.
  intros call.
  destruct (failures_then_answer (H:=micro_float) (up_after 2)
              48856600%Z 2352200%Z 3 2 __init__ empty_world timeout
              (city_of 48856600%Z 2352200%Z) call.1.1 call.1.2 call.2)
    as (_ & Hsent & Hres & _).
  - reflexivity.
  - lia.
  - intros i Hi. destruct i as [|[|i]]; [reflexivity|reflexivity|lia].
  - reflexivity.
  - apply triple_eta.
  - split; [exact Hsent|exact Hres].
Defined.

(** The default three attempts: nine seconds. *)
Lemma failing_call_sleeps_witness :
  let call :=
    reverse_geocode down 48856600%Z 2352200%Z 3 __init__ empty_world in
  ∃ evs, log call.2 = log empty_world ++ evs
         ∧ total_sleep evs = (3 + 2 ^ 3 - 2)%Z.
Proof.
  intros call.
  apply (failing_call_sleeps (H:=micro_float) down 48856600%Z 2352200%Z 3
           __init__ empty_world timeout call.1.1 call.1.2).
  - lia.
  - reflexivity.
  - intros i Hi. reflexivity.
  - apply triple_eta.
Defined.

Lemma call_is_bounded_and_paced_witness :
  let call :=
    reverse_geocode (up_after 1) 48856600%Z 2352200%Z 3 __init__
      empty_world in
  ∃ evs, log call.2 = log empty_world ++ evs ∧ paced false evs = true
         ∧ (sent empty_world ≤ sent call.2
            ≤ sent empty_world + Z.to_nat 3)%nat.
Proof.
  intros call.
  apply (call_is_bounded_and_paced (H:=micro_float) (up_after 1)
           48856600%Z 2352200%Z 3 __init__ empty_world call.1.1 call.1.2).
  apply triple_eta.
Defined.

Lemma requests_are_paced_witness :
  paced false
    (log (env (run (up_after 1) session
                 (start (with_file "in.csv" three_rows)))))
  = true.
Proof.
  apply (requests_are_paced (H:=micro_float) (up_after 1) session
           (start (with_file "in.csv" three_rows))).
  reflexivity.
Defined.

Lemma result_is_success_or_error_witness :
  let call :=
    reverse_geocode (up_after 1) 48856600%Z 2352200%Z 1 __init__
      empty_world in
  ∃ r, heap call.2 !! call.1.1 = Some r
       ∧ latitude r = 48856600%Z ∧ longitude r = 2352200%Z
       ∧ (status r = "success"
          ∨ ∃ last_error,
              r = error_result 48856600%Z 2352200%Z last_error).
Proof.
  intros call.
  apply (result_is_success_or_error (H:=micro_float) (up_after 1)
           48856600%Z 2352200%Z 1 __init__ empty_world call.1.1 call.1.2).
  - apply cache_ok_init.
  - apply triple_eta.
Defined.

(** A result that a call has returned is still there after a batch and
    a clearing. *)
Lemma results_are_kept_witness :
  let c := step (up_after 0) (start (with_file "in.csv" three_rows))
             (Call_reverse_geocode 48856600%Z 2352200%Z 3) in
  heap (env (run (up_after 0) batch_then_clear c)) !! 0
  = Some (success_result (H:=micro_float) 48856600%Z 2352200%Z
            (city_of 48856600%Z 2352200%Z)).
Proof.
  intros c.
  apply (results_are_kept (H:=micro_float) (up_after 0) batch_then_clear c).
  - intros i f Hin.
    apply elem_of_cons in Hin as [Hin|Hin]; [discriminate|].
    apply elem_of_cons in Hin as [Hin|Hin]; [discriminate|].
    by apply elem_of_nil in Hin.
  - reflexivity.
Defined.

Lemma stats_count_calls_witness :
  (get_cache_stats
     (geocoder (run (up_after 1) counted (start empty_world)))).2
  = calls_since_clear counted
  ∧ calls_since_clear counted = 2%Z.
Proof.
  split; [|reflexivity].
  apply (stats_count_calls (H:=micro_float) (up_after 1) counted empty_world).
  intros o Hin.
  repeat (apply elem_of_cons in Hin as [->|Hin]; [reflexivity|]).
  by apply elem_of_nil in Hin.
Defined.

(** Paris is cached, the cache is cleared, Paris is looked up again. *)
Lemma lookup_after_clear_is_miss_witness :
  let first :=
    reverse_geocode (up_after 0) 48856600%Z 2352200%Z 3 __init__
      empty_world in
  let again :=
    reverse_geocode (up_after 0) 48856600%Z 2352200%Z 3
      (clear_cache first.1.2) first.2 in
  cache_hits again.1.2 = 0%Z ∧ cache_misses again.1.2 = 1%Z.
Proof.
  intros first again.
  destruct (lookup_after_clear_is_miss (H:=micro_float) (up_after 0)
              first.1.2 first.2 48856600%Z 2352200%Z 3
              again.1.1 again.1.2 again.2) as (_ & Hhits & Hmisses & _).
  - apply triple_eta.
  - split; [exact Hhits|exact Hmisses].
Defined.

Ltac float_rows :=
  unfold numeric; cbn [data three_rows capitalised];
  repeat (apply List.Forall_cons; [by eexists _, _|]); apply List.Forall_nil.

Ltac in_columns := compute_done.

(** Paris, a row with a blank latitude, and Paris again, with a
    provider that is up: three rows, three successes, two requests. *)
Lemma process_csv_counts_witness :
  (∃ results rs cnt self' w1,
     process_csv_rows (up_after 0) with_blank "latitude" "longitude"
       (data with_blank) [] 0 __init__ (with_file "in.csv" with_blank)
     = (inr (results, cnt), self', w1)
     ∧ Forall2 (λ l r, heap w1 !! l = Some r) results rs
     ∧ length rs = length (data with_blank)
     ∧ process_csv (up_after 0) "in.csv" "out.csv" "latitude" "longitude"
         __init__ (with_file "in.csv" with_blank)
       = (inr (cnt, len with_blank), self',
          set_files
            (<["out.csv" :=
                 {| columns := columns with_blank ++ place_columns;
                    data := zip_with app (data with_blank)
                              (place_cells <$> rs) |}]>
               (files w1)) w1)
     ∧ cnt = Z.of_nat (length (filter (λ r, status r = "success") rs))
     ∧ (0 ≤ cnt ≤ len with_blank)%Z
     ∧ (cache_hits self' + cache_misses self'
        = cache_hits __init__ + cache_misses __init__ + len with_blank)%Z)
  ∧ let run :=
      process_csv (up_after 0) "in.csv" "out.csv" "latitude" "longitude"
        __init__ (with_file "in.csv" with_blank) in
    run.1.1 = inr (3, 3)%Z ∧ sent run.2 = 2
    ∧ cache_hits run.1.2 = 1%Z ∧ cache_misses run.1.2 = 2%Z.
Proof.
  split.
  - apply (process_csv_counts (H:=micro_float) (up_after 0) "in.csv"
             "out.csv" "latitude" "longitude" __init__
             (with_file "in.csv" with_blank) with_blank).
    + reflexivity.
    + in_columns.
    + in_columns.
    + unfold numbers; cbn [data with_blank].
      repeat (apply List.Forall_cons; [by eexists|]). apply List.Forall_nil.
    + discriminate.
  - repeat split; reflexivity.
Defined.

(** A table with a blank latitude: the batch returns and has written
    the output file and nothing else.  A table with words for
    latitudes: the batch raises and no file has changed. *)
Lemma process_csv_writes_all_or_nothing_witness :
  let returns :=
    process_csv (up_after 0) "in.csv" "out.csv" "latitude" "longitude"
      __init__ (with_file "in.csv" with_blank) in
  let raises :=
    process_csv (up_after 0) "in.csv" "out.csv" "latitude" "longitude"
      __init__ (with_file "in.csv" with_word) in
  returns.1.1 = inr (3, 3)%Z
  ∧ sent returns.2 = 2
  ∧ (∃ out, files returns.2
            = <["out.csv" := out]> (files (with_file "in.csv" with_blank)))
  ∧ raises.1.1 = inl (TypeError "type str doesn't define __round__ method")
  ∧ files raises.2 = files (with_file "in.csv" with_word).
Proof.
  intros returns raises.
  assert (returns.1.1 = inr (3, 3)%Z) as Hreturns by reflexivity.
  assert (raises.1.1
          = inl (TypeError "type str doesn't define __round__ method"))
    as Hraises by reflexivity.
  pose proof (process_csv_writes_all_or_nothing (H:=micro_float) (up_after 0)
                "in.csv" "out.csv" "latitude" "longitude" __init__
                (with_file "in.csv" with_blank) returns.1.1 returns.1.2
                returns.2 (triple_eta _)) as Hwritten.
  pose proof (process_csv_writes_all_or_nothing (H:=micro_float) (up_after 0)
                "in.csv" "out.csv" "latitude" "longitude" __init__
                (with_file "in.csv" with_word) raises.1.1 raises.1.2
                raises.2 (triple_eta _)) as Hkept.
  rewrite Hreturns in Hwritten. rewrite Hraises in Hkept.
  split; [exact Hreturns|]. split; [reflexivity|].
  split; [exact Hwritten|]. split; [exact Hraises|exact Hkept].
Defined.

Lemma up_after_0_answers :
  ∀ n la lo, ∃ data, up_after 0 n la lo = Response data.
Proof. intros n la lo. by eexists. Qed.

(** Paris twice and London once, with a provider that is up. *)
Lemma one_request_per_new_key_witness :
  ∃ self' w',
    process_csv (up_after 0) "in.csv" "out.csv" "latitude" "longitude"
      __init__ (with_file "in.csv" three_rows)
    = (inr (len three_rows, len three_rows), self', w')
    ∧ dom (cache self')
      = list_to_set (row_keys three_rows "latitude" "longitude"
                       (data three_rows))
        ∪ dom (cache __init__)
    ∧ sent w' + size (cache __init__)
      = sent (with_file "in.csv" three_rows) + size (cache self')
    ∧ (cache_misses self'
       + Z.of_nat (sent (with_file "in.csv" three_rows))
       = cache_misses __init__ + Z.of_nat (sent w'))%Z.
Proof.
  apply (one_request_per_new_key (H:=micro_float) (up_after 0) "in.csv"
           "out.csv" "latitude" "longitude" __init__
           (with_file "in.csv" three_rows) three_rows).
  - apply up_after_0_answers.
  - apply cache_ok_init.
  - reflexivity.
  - in_columns.
  - in_columns.
  - float_rows.
  - discriminate.
Defined.

(** The same table a second time, the provider now down. *)
Lemma cached_batch_sends_nothing_witness :
  let first :=
    process_csv (up_after 0) "in.csv" "out.csv" "latitude" "longitude"
      __init__ (with_file "in.csv" three_rows) in
  ∃ cnt self' w',
    process_csv down "in.csv" "out.csv" "latitude" "longitude" first.1.2
      first.2
    = (inr (cnt, len three_rows), self', w')
    ∧ log w' = log first.2 ∧ sent w' = sent first.2
    ∧ cache self' = cache first.1.2
    ∧ cache_misses self' = cache_misses first.1.2
    ∧ cache_hits self' = (cache_hits first.1.2 + len three_rows)%Z.
Proof.
  intros first.
  apply (cached_batch_sends_nothing (H:=micro_float) down "in.csv" "out.csv"
           "latitude" "longitude" first.1.2 first.2 three_rows).
  - reflexivity.
  - in_columns.
  - in_columns.
  - float_rows.
  - discriminate.
  - apply Forall_forall.
    repeat (apply List.Forall_cons; [by eexists|]). apply List.Forall_nil.
Defined.

Lemma column_map_takes_last_witness :
  column_map (columns two_latitudes) !! lower "Lat" = Some "LAT".
Proof.
  apply (column_map_takes_last (columns two_latitudes) ["lat"] "LAT" ["lon"]
           "Lat").
  - reflexivity.
  - reflexivity.
  - intros c' Hc'. apply elem_of_cons in Hc' as [->|Hc']; [discriminate|].
    by apply elem_of_nil in Hc'.
Defined.

Lemma process_geocoding_is_paced_witness :
  paced false
    (log (process_geocoding (up_after 1) three_rows "latitude" "longitude"
            "out.csv" empty_world))
  = true.
Proof.
  apply (process_geocoding_is_paced (H:=micro_float) (up_after 1) three_rows
           "latitude" "longitude" "out.csv" empty_world).
  reflexivity.
Defined.

Lemma process_geocoding_completes_witness :
  ∃ results rs self1 w1 shown,
    process_geocoding_rows (up_after 1) three_rows "latitude" "longitude"
      "out.csv" (len three_rows) (data three_rows) [] 0 __init__ empty_world
    = (inr (results, len three_rows), self1, w1)
    ∧ Forall2 (λ l r, heap w1 !! l = Some r) results rs
    ∧ Forall2 (λ row r, row_coordinates three_rows "latitude" "longitude" row
                        = Some (latitude r, longitude r))
        (data three_rows) rs
    ∧ let w' := process_geocoding (up_after 1) three_rows "latitude"
                  "longitude" "out.csv" empty_world in
      let output_df := {| columns := columns three_rows ++ place_columns;
                          data := zip_with app (data three_rows)
                                    (place_cells <$> rs) |} in
      ui w' = shown ++ [st_dataframe output_df;
                        st_download_button (Some output_df)]
      ∧ st_complete
          (Z.of_nat (length (filter (λ r, status r = "success") rs)))
          (len three_rows)
        ∈ shown
      ∧ files w' !! "out.csv" = None
      ∧ ∀ path, path ≠ "out.csv" →
                files w' !! path = files empty_world !! path.
Proof.
  apply (process_geocoding_completes (H:=micro_float) (up_after 1) three_rows
           "latitude" "longitude" "out.csv" empty_world).
  - float_rows.
  - discriminate.
Defined.

(** The names typed in another case than the columns have. *)
Lemma main_shows_results_witness :
  let w0 :=
    st_write (st_success "✅ Found required columns: 'Latitude' and 'Longitude'")
      (st_write (st_success "✅ File uploaded successfully! Found 1 rows.")
         empty_world) in
  let page :=
    main (up_after 0) (Some capitalised) "LATITUDE" "longitude" true
      "out.csv" empty_world in
  page
  = process_geocoding (up_after 0) capitalised "Latitude" "Longitude"
      "out.csv" w0
  ∧ ∃ results rs self1 w1 shown,
      process_geocoding_rows (up_after 0) capitalised "Latitude" "Longitude"
        "out.csv" (len capitalised) (data capitalised) [] 0 __init__ w0
      = (inr (results, len capitalised), self1, w1)
      ∧ Forall2 (λ l r, heap w1 !! l = Some r) results rs
      ∧ let output_df := {| columns := columns capitalised ++ place_columns;
                            data := zip_with app (data capitalised)
                                      (place_cells <$> rs) |} in
        ui page = shown ++ [st_dataframe output_df;
                            st_download_button (Some output_df)].
Proof.
  intros w0 page.
  destruct (main_shows_results (H:=micro_float) (up_after 0) capitalised
              "LATITUDE" "longitude" "out.csv" empty_world "Latitude"
              "Longitude")
    as (Hmain & results & rs & self1 & w1 & shown & Hloop & Hheap & _ & Hui).
  - reflexivity.
  - reflexivity.
  - float_rows.
  - discriminate.
  - split; [exact Hmain|].
    exists results, rs, self1, w1, shown.
    split; [exact Hloop|]. split; [exact Hheap|exact Hui].
Defined.

(** 75 of 120 rows: the file holds the first 50. *)
Lemma snapshot_between_saves_witness :
  let run :=
    process_geocoding_rows nowhere hundred_twenty "latitude" "longitude"
      "out.csv" (len hundred_twenty) (take 75 (data hundred_twenty)) [] 0
      __init__ empty_world in
  ∃ results out,
    run.1.1 = inr (results, 75%Z)
    ∧ length results = 75
    ∧ files run.2 !! "out.csv" = Some out
    ∧ length (data out) = 50.
Proof.
  intros run.
  destruct (snapshot_between_saves (H:=micro_float) nowhere hundred_twenty
              "latitude" "longitude" "out.csv" 75 empty_world)
    as (results & self' & w' & Hrun & Hlen & _ & Hfile).
  - unfold numeric. apply Forall_fmap, Forall_true. intros i.
    by eexists _, _.
  - vm_compute. lia.
  - destruct Hfile as (rs & Hheap & Hrs & Hout & _); [lia|].
    fold run in Hrun.
    exists results. eexists. rewrite Hrun. cbn [fst snd].
    split; [reflexivity|]. split; [exact Hlen|].
    split; [exact Hout|]. cbn [data].
    apply Forall2_length in Hrs.
    rewrite length_zip_with_l_eq by (by rewrite length_fmap).
    reflexivity.
Defined.

(** The same blank latitude twice, with a provider that is up: two
    misses, two requests, two entries in the cache. *)
Lemma nan_is_always_a_miss_witness :
  let first :=
    reverse_geocode (up_after 0) NaN 2352200%Z 3 __init__ empty_world in
  let again :=
    reverse_geocode (up_after 0) NaN 2352200%Z 3 first.1.2 first.2 in
  cache_hits again.1.2 = 0%Z ∧ cache_misses again.1.2 = 2%Z
  ∧ sent again.2 = 2 ∧ size (cache again.1.2) = 2.
Proof.
  intros first again.
  destruct (nan_is_always_a_miss (H:=micro_float) (up_after 0) NaN
              2352200%Z 3 first.1.2 first.2 again.1.1 again.1.2 again.2
              (success_result NaN 2352200%Z (city_of NaN 2352200%Z)))
    as (Hhits & Hmisses & _ & _ & _ & Hsize & _).
  - by left.
  - apply triple_eta.
  - reflexivity.
  - split; [exact Hhits|]. split; [exact Hmisses|].
    split; [reflexivity|]. exact (Hsize eq_refl).
Defined.
